(** * Amion rotation openings checker: the analytical core of [amion/app.py]

    A shallow embedding of the pure pipeline of [app.py]:
    [_clean_rotation_text], [_EXCLUDE_RE], [_prepare_rotations_df],
    [_rotations_with_repeat_use], [build_master_rotations] and
    [rotations_unfilled_in_month], followed by the properties of that
    pipeline.

    Conventions.
    - A Python [str] is a [string]; its characters are ASCII code points.
    - A pandas cell of an object column is a [cell]: a text or the missing
      value [NaN].
    - A [datetime64[ns]] value is its [int64] count of nanoseconds since
      1970-01-01; [NaT] is [None].  Arithmetic on [int64] wraps ([wrap64]).
    - [pd.to_datetime] reads the whole ['Date'] column at once
      ([column_parser]: one format, taken from the first cell that is not
      missing, for every cell); where a property does not depend on how
      the column is read, it is stated for any function of the column.
    - A data frame is the list of its rows, in row order.
    - A Python [set] of strings is the list of its distinct elements in
      insertion order; the order in which the interpreter iterates over it
      is a function [set_iter] of that history (it depends on the string
      hashes of the running process), about which nothing is assumed but
      that it enumerates the elements. *)

From Stdlib Require Import String Ascii ZArith NArith List Bool Lia.
From Stdlib Require Import Permutation Sorted.
From Stdlib Require DecimalString.
Import ListNotations.

Open Scope string_scope.
Open Scope Z_scope.

(* ================================================================= *)
(** ** Python strings *)

Module PyStr.

(** [str.isspace] on ASCII: TAB, LF, VT, FF, CR, FS, GS, RS, US and SPACE.
    The same class is [\s] of [re] on [str] patterns. *)
Definition is_space (c : ascii) : bool :=
  let n := N_of_ascii c in
  (((9 <=? n) && (n <=? 13)) || ((28 <=? n) && (n <=? 32)))%N.

Definition is_upper (c : ascii) : bool :=
  let n := N_of_ascii c in ((65 <=? n) && (n <=? 90))%N.

Definition lower_ascii (c : ascii) : ascii :=
  if is_upper c then ascii_of_N (N_of_ascii c + 32) else c.

(** [s.lower()] *)
Fixpoint lower (s : string) : string :=
  match s with
  | EmptyString => EmptyString
  | String c r => String (lower_ascii c) (lower r)
  end.

(** [s.lstrip()] *)
Fixpoint lstrip (s : string) : string :=
  match s with
  | EmptyString => EmptyString
  | String c r => if is_space c then lstrip r else s
  end.

(** [s.rstrip()] *)
Fixpoint rstrip (s : string) : string :=
  match s with
  | EmptyString => EmptyString
  | String c r =>
      match rstrip r with
      | EmptyString => if is_space c then EmptyString else String c EmptyString
      | r' => String c r'
      end
  end.

(** [s.strip()] *)
Definition strip (s : string) : string := rstrip (lstrip s).

(** [re.sub(r'\s+', ' ', s)]: every maximal run of whitespace becomes one
    space.  [in_run] tells that the previous character belonged to the run
    being replaced. *)
Fixpoint collapse_from (in_run : bool) (s : string) : string :=
  match s with
  | EmptyString => EmptyString
  | String c r =>
      if is_space c
      then (if in_run then collapse_from true r
            else String " " (collapse_from true r))
      else String c (collapse_from false r)
  end.

Definition collapse_ws (s : string) : string := collapse_from false s.

(** [(am|pm)] under [re.IGNORECASE]. *)
Definition is_am_pm (a b : ascii) : bool :=
  let a' := lower_ascii a in
  let b' := lower_ascii b in
  ((a' =? "a")%char || (a' =? "p")%char) && (b' =? "m")%char.

Fixpoint all_space (s : string) : bool :=
  match s with
  | EmptyString => true
  | String c r => is_space c && all_space r
  end.

(** The text after a comma matches [\s*(am|pm)\s*$]. *)
Definition ampm_tail (rest : string) : bool :=
  match lstrip rest with
  | String a (String b r) => is_am_pm a b && all_space r
  | _ => false
  end.

(** [re.sub(r',\s*(am|pm)\s*$', '', s, flags = re.IGNORECASE)]: the
    leftmost comma from which the pattern matches; the match runs to the end
    of the string and is deleted. *)
Fixpoint sub_ampm_suffix (s : string) : string :=
  match s with
  | EmptyString => EmptyString
  | String c r =>
      if (c =? ",")%char && ampm_tail r then EmptyString
      else String c (sub_ampm_suffix r)
  end.

(** [r.replace('*', '')] *)
Fixpoint remove_star (s : string) : string :=
  match s with
  | EmptyString => EmptyString
  | String c r =>
      if (c =? "*")%char then remove_star r else String c (remove_star r)
  end.

(** [t in s] for strings: [t] occurs in [s] as a substring. *)
Fixpoint contains (t s : string) : bool :=
  prefix t s ||
  match s with
  | EmptyString => false
  | String _ r => contains t r
  end.

Fixpoint has_char (c : ascii) (s : string) : bool :=
  match s with
  | EmptyString => false
  | String d r => (c =? d)%char || has_char c r
  end.

(** The pattern [,\s*(am|pm)\s*$] matches somewhere in [s]. *)
Fixpoint has_ampm_suffix (s : string) : bool :=
  match s with
  | EmptyString => false
  | String c r => ((c =? ",")%char && ampm_tail r) || has_ampm_suffix r
  end.

(** Every whitespace character of [s] is a single space that follows a
    character that is no whitespace; [after_space] tells that the character
    before [s] was whitespace (or that [s] starts the text). *)
Fixpoint spaced_from (after_space : bool) (s : string) : bool :=
  match s with
  | EmptyString => true
  | String c r =>
      if is_space c
      then (c =? " ")%char && negb after_space && spaced_from true r
      else spaced_from false r
  end.

Definition ends_with_space (s : string) : bool :=
  negb (String.eqb (rstrip s) s).

(** The case-insensitive sort key order [x.lower() <= y.lower()]. *)
Definition lower_leb (x y : string) : bool := String.leb (lower x) (lower y).

End PyStr.

Import PyStr.

(* ================================================================= *)
(** ** Cells and the text normalizer *)

Inductive cell : Type :=
| Text (s : string)
| NaN.

(** [str(s)] *)
Definition py_str (c : cell) : string :=
  match c with
  | Text s => s
  | NaN => "nan"
  end.

Definition notna (c : cell) : bool :=
  match c with
  | Text _ => true
  | NaN => false
  end.

Definition _clean_rotation_text (s : cell) : string :=
  let s1 := strip (py_str s) in
  let s2 := collapse_ws s1 in
  sub_ampm_suffix s2.

(* ================================================================= *)
(** ** The exclusion matcher *)

Definition banned_terms : list string :=
  [ "Conf"; "Didactic"; "Exam"; "Panel"; "Retreat"; "R1"; "R2"; "R3";
    "SOM Resc"; "Resc"; "ABIM"; "Board Prep";
    "Chief"; "Clinic"; "Holiday"; "Off"; "Immersion"; "Academic";
    "Vacation"; "Sick"; "Interview"; "PPC"; "Shadow"; "TBD"; "Jury";
    "ACGME" ].

(** [_EXCLUDE_RE.search(s) is not None]: some banned term occurs in [s],
    letter case ignored. *)
Definition _EXCLUDE_RE (s : string) : bool :=
  existsb (fun t => contains (lower t) (lower s)) banned_terms.

(** The banned terms without ['SOM Resc']. *)
Definition banned_terms_without_som_resc : list string :=
  filter (fun t => negb (String.eqb t "SOM Resc")) banned_terms.

(* ================================================================= *)
(** ** Data frames *)

(** A row of the raw frame; only the columns the core reads. *)
Record raw_row : Type := mk_raw {
  raw_Name : cell;
  raw_Assignment : cell;
  raw_Date : cell
}.

(** A row of [df2] inside [_prepare_rotations_df], after the columns
    ['Date_dt'] and ['Rotation'] have been added. *)
Record df2_row : Type := mk_df2 {
  df2_Name : cell;
  df2_Rotation : string;
  df2_Date_dt : option Z
}.

(** A row of the prepared frame [df2[['Name', 'Rotation', 'Date_dt']]]. *)
Record row : Type := mk_row {
  Name : string;
  Rotation : string;
  Date_dt : Z
}.

(* ================================================================= *)
(** ** 64-bit integers and the calendar *)

(** The value an [int64] holds after an operation whose exact result is
    [z]. *)
Definition wrap64 (z : Z) : Z := (z + 2 ^ 63) mod 2 ^ 64 - 2 ^ 63.

Definition day_ns : Z := 24 * 60 * 60 * 1000000000.

(** Proleptic Gregorian calendar, as in [datetime]. *)
Definition is_leap (y : Z) : bool :=
  (y mod 4 =? 0) && (negb (y mod 100 =? 0) || (y mod 400 =? 0)).

Definition days_before_year (y : Z) : Z :=
  let y1 := y - 1 in y1 * 365 + y1 / 4 - y1 / 100 + y1 / 400.

Definition days_in_month (y m : Z) : Z :=
  if m =? 2 then (if is_leap y then 29 else 28)
  else if (m =? 4) || (m =? 6) || (m =? 9) || (m =? 11) then 30
  else 31.

Definition days_before_month (y m : Z) : Z :=
  nth (Z.to_nat m) [0; 0; 31; 59; 90; 120; 151; 181; 212; 243; 273; 304; 334] 0
  + (if (2 <? m) && is_leap y then 1 else 0).

Definition ymd2ord (y m d : Z) : Z :=
  days_before_year y + days_before_month y m + d.

(** Nanoseconds from 1970-01-01 (ordinal 719163) to midnight of the day. *)
Definition timestamp_ns (y m d : Z) : Z := (ymd2ord y m d - 719163) * day_ns.

(** [pd.to_datetime(month_yyyy_mm + '-01')] for the month [(y, m)] that
    [month_yyyy_mm] spells.  The call raises for a month that is no
    [datetime64[ns]] date; the model goes on with the integer. *)
Definition month_start (y m : Z) : Z := timestamp_ns y m 1.

(** [month_start + pd.offsets.MonthBegin(1)]: midnight of the first day of
    the next month. *)
Definition month_end (y m : Z) : Z :=
  if m =? 12 then timestamp_ns (y + 1) 1 1 else timestamp_ns y (m + 1) 1.

(** The months the coverage checker accepts: both ends of the interval
    are dates that [datetime64[ns]] holds. *)
Definition valid_month (y m : Z) : Prop :=
  1 <= m <= 12 /\ - 2 ^ 63 < month_start y m /\ month_end y m < 2 ^ 63.

(* ================================================================= *)
(** ** Sorting and sets *)

Section Sorting.
Context {A : Type}.
Variable leb : A -> A -> bool.

(** Insertion of [x] in front of the first element that is not below
    it. *)
Fixpoint insert_sorted (x : A) (l : list A) : list A :=
  match l with
  | [] => [x]
  | y :: l' => if leb x y then x :: l else y :: insert_sorted x l'
  end.

(** A stable sort: of two elements neither of which is strictly below
    the other, the one that comes first in [l] comes first in the
    result. *)
Fixpoint stable_sort (l : list A) : list A :=
  match l with
  | [] => []
  | x :: l' => insert_sorted x (stable_sort l')
  end.
End Sorting.

(** [sorted(xs, key = lambda x: x.lower())] on the sequence [xs]. *)
Definition sorted_by_lower (xs : list string) : list string :=
  stable_sort lower_leb xs.

Definition mem (x : string) (s : list string) : bool :=
  existsb (String.eqb x) s.

(** [s.add(x)] on the insertion history of a set. *)
Definition set_add (x : string) (s : list string) : list string :=
  if mem x s then s else s ++ [x].

(** [set(xs)] *)
Definition set_of_list (xs : list string) : list string :=
  fold_left (fun s x => set_add x s) xs [].

(** The order [sort_values(['Name', 'Rotation', 't'])] sorts by. *)
Definition row_leb (a b : row) : bool :=
  match String.compare (Name a) (Name b) with
  | Lt => true
  | Gt => false
  | Eq =>
      match String.compare (Rotation a) (Rotation b) with
      | Lt => true
      | Gt => false
      | Eq => Date_dt a <=? Date_dt b
      end
  end.

Definition sort_values (df : list row) : list row := stable_sort row_leb df.

Definition same_key (k : string * string) (r : row) : bool :=
  String.eqb (fst k) (Name r) && String.eqb (snd k) (Rotation r).

Definition key_eqb (k k' : string * string) : bool :=
  String.eqb (fst k) (fst k') && String.eqb (snd k) (snd k').

(** The distinct keys of a list, in order of first appearance. *)
Fixpoint first_seen (ks : list (string * string)) : list (string * string) :=
  match ks with
  | [] => []
  | k :: ks' => k :: filter (fun k' => negb (key_eqb k k')) (first_seen ks')
  end.

(** [df.groupby(['Name', 'Rotation'], sort = False)]: one group per key,
    in order of first appearance, each with its rows in frame order. *)
Definition groupby (df : list row) : list ((string * string) * list row) :=
  map (fun k => (k, filter (same_key k) df))
      (first_seen (map (fun r => (Name r, Rotation r)) df)).

(* ================================================================= *)
(** ** The repeat-use scan of one group *)

(** [while t[j] - t[i] > window_ns: i += 1], where [tj] is [t[j]] and
    [suffix] is [t[i:]].  [None] is the [IndexError] of reading [t[i]]
    past the end. *)
Fixpoint advance (window_ns tj : Z) (suffix : list Z) (i : nat) : option nat :=
  match suffix with
  | [] => None
  | ti :: rest =>
      if wrap64 (tj - ti) >? window_ns
      then advance window_ns tj rest (S i)
      else Some i
  end.

(** [for j in js: ...] of [_rotations_with_repeat_use], started with left
    index [i]; [Some true] is the [break] after [qualifying.add(rot)]. *)
Fixpoint scan (min_count window_ns : Z) (t : list Z) (js : list nat) (i : nat)
  : option bool :=
  match js with
  | [] => Some false
  | j :: js' =>
      match nth_error t j with
      | None => None
      | Some tj =>
          match advance window_ns tj (skipn i t) i with
          | None => None
          | Some i' =>
              if Z.of_nat j - Z.of_nat i' + 1 >=? min_count then Some true
              else scan min_count window_ns t js' i'
          end
      end
  end.

Definition group_qualifies (min_count window_days : Z) (t : list Z)
  : option bool :=
  scan min_count (window_days * 24 * 60 * 60 * 1000000000) t
       (seq 0 (length t)) 0.

(** The loop over the groups; [qualifying] is the set built so far. *)
Fixpoint detect_groups (min_count window_days : Z)
    (groups : list ((string * string) * list row)) (qualifying : list string)
  : option (list string) :=
  match groups with
  | [] => Some qualifying
  | (k, g) :: rest =>
      match group_qualifies min_count window_days (map Date_dt g) with
      | None => None
      | Some true =>
          detect_groups min_count window_days rest (set_add (snd k) qualifying)
      | Some false => detect_groups min_count window_days rest qualifying
      end
  end.

Definition _rotations_with_repeat_use (df_rot : list row)
    (min_count window_days : Z) : option (list string) :=
  detect_groups min_count window_days (groupby (sort_values df_rot)) [].

(* ================================================================= *)
(** ** The date column *)

(** What the library makes of one text: a date, or no date. *)
Inductive parsed : Type :=
| Parsed (t : Z)
| Unparsable.

(** [errors = 'coerce']: a text that is no date is [NaT], not an error. *)
Definition coerce (p : parsed) : option Z :=
  match p with
  | Parsed t => Some t
  | Unparsable => None
  end.

Section ColumnParser.
Context {fmt : Type}.

(** The format the library guesses from one text, if it guesses one. *)
Variable guess_format : string -> option fmt.

(** One text read with the format of the column, or on its own when the
    column has none. *)
Variable parse_with : option fmt -> string -> parsed.

(** The first cell of the column that is not missing. *)
Definition first_non_null (col : list cell) : option cell := find notna col.

(** [infer_datetime_format = True]: the format of the column is the one
    guessed from its first cell that is not missing. *)
Definition inferred_format (col : list cell) : option fmt :=
  match first_non_null col with
  | Some (Text s) => guess_format s
  | _ => None
  end.

Definition to_datetime_cell (f : option fmt) (c : cell) : option Z :=
  match c with
  | Text s => coerce (parse_with f s)
  | NaN => None
  end.

(** [pd.to_datetime(col, errors = 'coerce', infer_datetime_format = True)]:
    every cell is read with the one format of the column. *)
Definition column_parser (col : list cell) : list (option Z) :=
  map (to_datetime_cell (inferred_format col)) col.

End ColumnParser.

(* ================================================================= *)
(** ** The pipeline *)

Section Pipeline.

(** [pd.to_datetime(..., errors = 'coerce', infer_datetime_format = True)]
    on the column ['Date']: the column of the dates, [None] for [NaT].
    The library's parser is [column_parser]. *)
Variable to_datetime : list cell -> list (option Z).

(** The iteration order of a set, from its insertion history. *)
Variable set_iter : list string -> list string.

(** The frame with its new column ['Date_dt'], kept beside the row. *)
Definition _parse_date_column (df : list raw_row)
  : list (raw_row * option Z) :=
  combine df (to_datetime (map raw_Date df)).

(** The row of [df[['Name', 'Rotation', 'Date_dt']]]; the rows that reach
    it have a text in ['Name'] and a date in ['Date_dt']. *)
Definition project (r : df2_row) : list row :=
  match df2_Name r, df2_Date_dt r with
  | Text n, Some d => [mk_row n (df2_Rotation r) d]
  | _, _ => []
  end.

(** ['Rotation'] holds a [str] in every row, so the filter
    [df2['Rotation'].notna()] keeps every row and is left out. *)
Definition _prepare_rotations_df (df : list raw_row) : list row :=
  let df2 :=
    map (fun rd => mk_df2 (raw_Name (fst rd))
                          (_clean_rotation_text (raw_Assignment (fst rd)))
                          (snd rd))
        (_parse_date_column df) in
  let df2 := filter (fun r => negb (String.eqb (strip (df2_Rotation r)) EmptyString)) df2 in
  let df2 := filter (fun r => negb (_EXCLUDE_RE (df2_Rotation r))) df2 in
  let df2 := filter (fun r => notna (df2_Name r)) df2 in
  let df2 := filter (fun r => negb (String.eqb (strip (py_str (df2_Name r))) EmptyString)) df2 in
  let df2 := filter (fun r => match df2_Date_dt r with
                              | Some _ => true | None => false end) df2 in
  flat_map project df2.

(** The four checks of [_prepare_rotations_df] on one raw row with its
    cell [d] of ['Date_dt']: the rotation is not blank, it is not
    excluded, the name is present and not blank, and the date is no
    [NaT]. *)
Definition survives (r : raw_row) (d : option Z) : bool :=
  negb (String.eqb (strip (_clean_rotation_text (raw_Assignment r))) EmptyString)
  && negb (_EXCLUDE_RE (_clean_rotation_text (raw_Assignment r)))
  && notna (raw_Name r)
  && negb (String.eqb (strip (py_str (raw_Name r))) EmptyString)
  && match d with Some _ => true | None => false end.

(** What one raw row with its cell of ['Date_dt'] contributes to the
    prepared frame. *)
Definition prepare_row (rd : raw_row * option Z) : list row :=
  if survives (fst rd) (snd rd) then
    match raw_Name (fst rd), snd rd with
    | Text n, Some d =>
        [mk_row n (_clean_rotation_text (raw_Assignment (fst rd))) d]
    | _, _ => []
    end
  else [].

Definition build_master_rotations (df : list raw_row) : option (list string) :=
  let df_rot := _prepare_rotations_df df in
  match _rotations_with_repeat_use df_rot 6 92 with
  | None => None
  | Some qualifying => Some (sorted_by_lower (set_iter qualifying))
  end.

(** The rows of the prepared frame dated within the month. *)
Definition in_month (df_rot : list row) (y m : Z) : list row :=
  filter (fun r => (month_start y m <=? Date_dt r)
                   && (Date_dt r <? month_end y m)) df_rot.

Definition filled (df_rot : list row) (y m : Z) : list string :=
  set_of_list (map Rotation (in_month df_rot y m)).

(** [sorted(set(unfilled), key = ...)], before the stars are removed. *)
Definition unfilled_sorted (df : list raw_row) (master_rotations : list string)
    (y m : Z) : list string :=
  let df_rot := _prepare_rotations_df df in
  let unfilled :=
    filter (fun r => negb (mem r (filled df_rot y m))) master_rotations in
  sorted_by_lower (set_iter (set_of_list unfilled)).

Definition rotations_unfilled_in_month (df : list raw_row)
    (master_rotations : list string) (y m : Z) : list string :=
  map remove_star (unfilled_sorted df master_rotations y m).

End Pipeline.

(* ================================================================= *)
(** ** What the detector is to decide *)

(** Some [n] of the dates of the ascending array [t] lie in a window of
    span at most [w]: the first of them at index [i], the last at index
    [j], with at least [n] entries from [i] to [j]. *)
Definition fits_window (n : nat) (w : Z) (t : list Z) : Prop :=
  exists i j : nat,
    (i + n <= j + 1)%nat /\ (j < length t)%nat /\ nth j t 0 - nth i t 0 <= w.

(** No difference of two entries of [t] leaves the range of [int64]. *)
Definition no_overflow (t : list Z) : Prop :=
  forall x y, In x t -> In y t -> y - x < 2 ^ 63.

Definition ascending (t : list Z) : Prop :=
  forall i j : nat, (i <= j)%nat -> (j < length t)%nat -> nth i t 0 <= nth j t 0.

(** The occurrence dates of the group [k = (person, rotation)] of a
    prepared frame, ascending; equal dates are all kept. *)
Definition group_dates (df_rot : list row) (k : string * string) : list Z :=
  stable_sort Z.leb (map Date_dt (filter (same_key k) df_rot)).

(** [x] lies in the window of span [w] that starts at [a]. *)
Definition in_window (a w x : Z) : bool := (a <=? x) && (x <=? a + w).

(* ================================================================= *)
(** ** Instances used in the examples *)

Definition digit (c : ascii) : option Z :=
  let n := N_of_ascii c in
  if ((48 <=? n) && (n <=? 57))%N then Some (Z.of_N n - 48) else None.

Definition number (ds : list ascii) : option Z :=
  fold_left (fun acc c =>
               match acc, digit c with
               | Some a, Some d => Some (10 * a + d)
               | _, _ => None
               end) ds (Some 0).

(** A date parser that reads [YYYY-MM-DD] and nothing else; a date outside
    the range of [datetime64[ns]] is [NaT]. *)
Definition iso_date (s : string) : option Z :=
  match s with
  | String y1 (String y2 (String y3 (String y4 (String "-"
      (String m1 (String m2 (String "-" (String d1 (String d2 EmptyString))))))))) =>
      match number [y1; y2; y3; y4], number [m1; m2], number [d1; d2] with
      | Some y, Some m, Some d =>
          let t := timestamp_ns y m d in
          if (1 <=? y) && (1 <=? m) && (m <=? 12) && (1 <=? d)
             && (d <=? days_in_month y m)
             && (- 2 ^ 63 <? t) && (t <? 2 ^ 63)
          then Some t else None
      | _, _, _ => None
      end
  | _ => None
  end.

(** The same for [MM/DD/YYYY]. *)
Definition us_date (s : string) : option Z :=
  match s with
  | String m1 (String m2 (String "/" (String d1 (String d2 (String "/"
      (String y1 (String y2 (String y3 (String y4 EmptyString))))))))) =>
      match number [y1; y2; y3; y4], number [m1; m2], number [d1; d2] with
      | Some y, Some m, Some d =>
          let t := timestamp_ns y m d in
          if (1 <=? y) && (1 <=? m) && (m <=? 12) && (1 <=? d)
             && (d <=? days_in_month y m)
             && (- 2 ^ 63 <? t) && (t <? 2 ^ 63)
          then Some t else None
      | _, _, _ => None
      end
  | _ => None
  end.

Definition iso_cell (c : cell) : option Z :=
  match c with
  | Text s => iso_date s
  | NaN => None
  end.

(** A column parser that knows the one format [YYYY-MM-DD]. *)
Definition iso_to_datetime (col : list cell) : list (option Z) :=
  map iso_cell col.

(** A column parser that knows two formats and takes the one of the first
    dated cell for the whole column. *)
Inductive date_format : Type :=
| ISO_dashes
| US_slashes.

Definition guess_iso_us (s : string) : option date_format :=
  match iso_date s, us_date s with
  | Some _, _ => Some ISO_dashes
  | None, Some _ => Some US_slashes
  | None, None => None
  end.

Definition option_parsed (d : option Z) : parsed :=
  match d with
  | Some t => Parsed t
  | None => Unparsable
  end.

Definition parse_iso_us (f : option date_format) (s : string) : parsed :=
  match f with
  | Some ISO_dashes => option_parsed (iso_date s)
  | Some US_slashes => option_parsed (us_date s)
  | None =>
      match iso_date s with
      | Some t => Parsed t
      | None => option_parsed (us_date s)
      end
  end.

Definition inferring_to_datetime : list cell -> list (option Z) :=
  column_parser guess_iso_us parse_iso_us.

(** A set that iterates in insertion order. *)
Definition insertion_order (s : list string) : list string := s.

(** A set that iterates in reverse insertion order. *)
Definition reverse_order (s : list string) : list string := rev s.

Definition raw (name rotation date : string) : raw_row :=
  mk_raw (Text name) (Text rotation) (Text date).

(** Six rows of one person whose assignment is missing, within 92 days. *)
Definition nan_frame : list raw_row :=
  map (fun d => mk_raw (Text "Avery") NaN (Text d))
      [ "2024-01-01"; "2024-01-15"; "2024-02-01"; "2024-02-15";
        "2024-03-01"; "2024-03-15" ].

(** Five rows of one person and rotation on 1900-01-01 and a sixth on
    2200-01-01. *)
Definition far_apart_frame : list raw_row :=
  map (raw "Avery" "ICU")
      [ "1900-01-01"; "1900-01-01"; "1900-01-01"; "1900-01-01";
        "1900-01-01"; "2200-01-01" ].

(** Six rows of one person and rotation, the first and the last [span]
    days apart (for 92 and 93). *)
Definition six_rows (last_day : string) : list raw_row :=
  map (raw "Avery" "ICU")
      [ "2024-01-01"; "2024-01-05"; "2024-02-01"; "2024-03-01";
        "2024-03-05"; last_day ].

(** A row dated in the form [MM/DD/YYYY] before six rows of the same
    person and rotation dated in the form [YYYY-MM-DD], within 92 days. *)
Definition mixed_frame : list raw_row :=
  raw "Avery" "ICU" "12/25/2023" :: six_rows "2024-04-02".

(** Person A holds the rotation six times within 92 days, person B
    twice. *)
Definition cards_frame : list raw_row :=
  map (raw "A" "Cards Consult")
      [ "2024-01-01"; "2024-01-05"; "2024-02-01"; "2024-03-01";
        "2024-03-05"; "2024-04-02" ]
  ++ map (raw "B" "Cards Consult") [ "2024-01-01"; "2024-06-01" ].

(** One occurrence of [Cardiology] in February 2026. *)
Definition cardiology_frame : list raw_row :=
  [ raw "Avery" "Cardiology" "2026-02-10" ].

(** One occurrence of [CARDS], in capitals, in February 2026. *)
Definition cards_upper_frame : list raw_row :=
  [ raw "Avery" "CARDS" "2026-02-10" ].

(** Occurrences on the first and the last day of February 2026 and on the
    first day of March 2026. *)
Definition month_edges_frame : list raw_row :=
  [ raw "Avery" "First" "2026-02-01"; raw "Avery" "Last" "2026-02-28";
    raw "Avery" "Next" "2026-03-01" ].

(** Two persons, six occurrences each within 92 days, of two rotations
    whose names differ in letter case only. *)
Definition apple_frame : list raw_row :=
  map (raw "A" "apple")
      [ "2024-01-01"; "2024-01-05"; "2024-02-01"; "2024-03-01";
        "2024-03-05"; "2024-04-02" ]
  ++ map (raw "B" "Apple")
      [ "2024-01-01"; "2024-01-05"; "2024-02-01"; "2024-03-01";
        "2024-03-05"; "2024-04-02" ].

(* ================================================================= *)
(** ** Retrieval: the request and the cleaning of the export *)

(** A [datetime] at midnight. *)
Record date : Type := mk_date { year : Z; month : Z; day : Z }.

(** [str(n)] for an [int]. *)
Definition str_of_int (n : Z) : string :=
  DecimalString.NilZero.string_of_int (Z.to_int n).

(** [startdate.strftime('%y')]: the year of the century, two digits. *)
Definition strftime_y (d : date) : string :=
  let yy := year d mod 100 in
  if yy <? 10 then ("0" ++ str_of_int yy)%string else str_of_int yy.

(** [(enddate - startdate).days] *)
Definition days_between (startdate enddate : date) : Z :=
  ymd2ord (year enddate) (month enddate) (day enddate)
  - ymd2ord (year startdate) (month startdate) (day startdate).

Definition generate_url (startdate enddate : date) (passkey : string) : string :=
  let urlstem :=
    ("https://www.amion.com/cgi-bin/ocs?Lo=" ++ passkey ++ "&Rpt=625ctabs")%string in
  let y := strftime_y startdate in
  let m := month startdate in
  let d := day startdate in
  let delta := days_between startdate enddate in
  let datestring :=
    ("&Day=" ++ str_of_int d ++ "&Month=" ++ str_of_int m ++ "-" ++ y
     ++ "&Days=" ++ str_of_int delta)%string in
  (urlstem ++ datestring)%string.

(** The characters [urllib.parse.quote] never quotes: letters, digits and
    [_.-~]; its default [safe] adds the slash. *)
Definition always_safe (c : ascii) : bool :=
  let n := N_of_ascii c in
  (((65 <=? n) && (n <=? 90)) || ((97 <=? n) && (n <=? 122))
   || ((48 <=? n) && (n <=? 57)))%N
  || (c =? "_")%char || (c =? ".")%char || (c =? "-")%char || (c =? "~")%char.

Definition hex_digit (n : N) : ascii :=
  nth (N.to_nat n)
      [ "0"; "1"; "2"; "3"; "4"; "5"; "6"; "7"; "8"; "9";
        "A"; "B"; "C"; "D"; "E"; "F" ]%char "0"%char.

(** [quote(s)]: every other character becomes [%XX]. *)
Fixpoint quote (s : string) : string :=
  match s with
  | EmptyString => EmptyString
  | String c r =>
      if always_safe c || (c =? "/")%char then String c (quote r)
      else String "%" (String (hex_digit (N_of_ascii c / 16))
                         (String (hex_digit (N_of_ascii c mod 16)) (quote r)))
  end.

Fixpoint count_char (c : ascii) (s : string) : nat :=
  match s with
  | EmptyString => 0%nat
  | String d r => ((if (c =? d)%char then 1 else 0) + count_char c r)%nat
  end.

(** The dates of the academic years [download_df] knows. *)
Definition academic_year_dates (academicYear : string) : date * date :=
  if String.eqb academicYear "AY22"
  then (mk_date 2022 6 24, mk_date 2023 6 27)
  else if String.eqb academicYear "AY23"
  then (mk_date 2023 6 28, mk_date 2024 6 30)
  else if String.eqb academicYear "AY24"
  then (mk_date 2024 7 1, mk_date 2025 6 29)
  else if String.eqb academicYear "AY25"
  then (mk_date 2025 6 30, mk_date 2026 6 29)
  else (mk_date 1 1 1, mk_date 1 1 2).

(** A row of the export with the eight columns [download_df] names. *)
Record amion_row : Type := mk_amion {
  col_Name : cell;
  col_Assignment : cell;
  col_Date : cell;
  col_Start : cell;
  col_Stop : cell;
  col_Role : cell;
  col_Type : cell;
  col_Assgn : cell
}.

(** A row of the frame [download_df_multi_year] returns: the export row
    with its ['AcademicYear']. *)
Record frame_row : Type := mk_frame {
  export_row : amion_row;
  AcademicYear : string
}.

(** The columns of a frame row that the core reads. *)
Definition core_row (r : frame_row) : raw_row :=
  mk_raw (col_Name (export_row r)) (col_Assignment (export_row r))
         (col_Date (export_row r)).

(** Exceptions: the [AttributeError] of the [.str] accessor on a column
    that holds no string, the [IndexError] of the scan, and the errors of
    the libraries ([urlopen], [read_table], [to_datetime]). *)
Inductive exn : Type :=
| AttributeError
| IndexError
| LibraryError (msg : string).

Inductive outcome (A : Type) : Type :=
| Returned (a : A)
| Raised (e : exn).

Arguments Returned {A} a.
Arguments Raised {A} e.

(** What [pd.read_table(fetch_table(url), ...)] gives: the table, the
    [EmptyDataError] that [download_df] catches, or another error. *)
Inductive fetched : Type :=
| Table (rows : list amion_row)
| EmptyDataError
| FetchError (e : exn).

(** [s.str[-1] != '*'] on one cell: the last character of a text, which
    is missing for the empty text and for a missing cell. *)
Fixpoint last_char (s : string) : option ascii :=
  match s with
  | EmptyString => None
  | String c EmptyString => Some c
  | String _ r => last_char r
  end.

Definition ends_in_star (c : cell) : bool :=
  match c with
  | Text s =>
      match last_char s with
      | Some d => (d =? "*")%char
      | None => false
      end
  | NaN => false
  end.

(** [cell != 'Services'] *)
Definition is_services (c : cell) : bool :=
  match c with
  | Text s => String.eqb s "Services"
  | NaN => false
  end.

(** [s.replace(c, '')] *)
Fixpoint remove_char (c : ascii) (s : string) : string :=
  match s with
  | EmptyString => EmptyString
  | String d r =>
      if (d =? c)%char then remove_char c r else String d (remove_char c r)
  end.

Definition clean_name (c : cell) : string :=
  strip (remove_char "034" (remove_char "'" (py_str c))).

Definition clean_assignment (c : cell) : string :=
  collapse_ws (strip (py_str c)).

Section Retrieval.

(** The request and the parsing of its answer, for a URL. *)
Variable read_table : string -> fetched.

Definition download_df (academicYear passkey : string)
  : outcome (list amion_row) :=
  let (startdate, enddate) := academic_year_dates academicYear in
  let passkey_encoded := quote passkey in
  let url := generate_url startdate enddate passkey_encoded in
  match read_table url with
  | FetchError e => Raised e
  | EmptyDataError => Returned []
  | Table rows =>
      let df := filter (fun r => notna (col_Role r)) rows in
      let df := filter (fun r => negb (is_services (col_Role r))) df in
      (* [.str] needs a column of strings: a column that was read without
         any text is a column of floats *)
      if negb (existsb (fun r => notna (col_Role r)) rows)
         && negb (Nat.eqb (length rows) 0)
      then Raised AttributeError
      else
        let df := filter (fun r => negb (ends_in_star (col_Role r))) df in
        let df :=
          map (fun r => mk_amion (Text (clean_name (col_Name r)))
                                 (col_Assignment r) (col_Date r)
                                 (col_Start r) (col_Stop r) (col_Role r)
                                 (col_Type r) (col_Assgn r)) df in
        let df :=
          map (fun r => mk_amion (col_Name r)
                                 (Text (clean_assignment (col_Assignment r)))
                                 (col_Date r) (col_Start r) (col_Stop r)
                                 (col_Role r) (col_Type r) (col_Assgn r)) df in
        Returned df
  end.

(** The loop of [download_df_multi_year]; [dfs] holds the frames appended
    so far. *)
Fixpoint multi_year_loop (academicYears : list string) (passkey : string)
    (dfs : list (list frame_row)) : outcome (list (list frame_row)) :=
  match academicYears with
  | [] => Returned dfs
  | ay :: rest =>
      match download_df ay passkey with
      | Raised e => Raised e
      | Returned dfi =>
          if Nat.eqb (length dfi) 0
          then multi_year_loop rest passkey dfs
          else multi_year_loop rest passkey
                 (dfs ++ [map (fun r => mk_frame r ay) dfi])
      end
  end.

Definition download_df_multi_year (academicYears : list string)
    (passkey : string) : outcome (list frame_row) :=
  match multi_year_loop academicYears passkey [] with
  | Raised e => Raised e
  | Returned dfs =>
      if Nat.eqb (length dfs) 0 then Returned [] else Returned (concat dfs)
  end.

End Retrieval.

(** The frame of one year as [download_df_multi_year] appends it: the rows
    of [download_df] with the year in ['AcademicYear']. *)
Definition tagged_frame (read_table : string -> fetched) (passkey : string)
    (ay : string) : list frame_row :=
  match download_df read_table ay passkey with
  | Returned dfi => map (fun r => mk_frame r ay) dfi
  | Raised _ => []
  end.

(* ================================================================= *)
(** ** The server *)

(** [re.match(r'^\d{4}-\d{2}$', month)] on a stripped text. *)
Definition is_digit (c : ascii) : bool :=
  let n := N_of_ascii c in ((48 <=? n) && (n <=? 57))%N.

Definition month_format_ok (month : string) : bool :=
  match month with
  | String y1 (String y2 (String y3 (String y4 (String sep
      (String m1 (String m2 EmptyString)))))) =>
      is_digit y1 && is_digit y2 && is_digit y3 && is_digit y4
      && (sep =? "-")%char && is_digit m1 && is_digit m2
  | _ => false
  end.

(** The reactive values of [server]. *)
Record app_state : Type := mk_state {
  df_state : list frame_row;
  master_state : list string;
  unfilled_state : list string;
  status_state : string
}.

Definition initial_state : app_state :=
  mk_state [] [] [] "Ready. Enter passkey and click Load / Refresh data.".

(** [x or ''] for an input that is a text or [None]. *)
Definition or_empty (x : option string) : string :=
  match x with
  | Some s => s
  | None => EmptyString
  end.

Section Server.

Variable read_table : string -> fetched.
Variable to_datetime : list cell -> list (option Z).
Variable set_iter : list string -> list string.

(** [pd.to_datetime(month_yyyy_mm + '-01')] and that date plus
    [pd.offsets.MonthBegin(1)], as the library computes them from the
    text, or the error it raises. *)
Variable month_interval : string -> outcome (Z * Z).

(** [str(e)] *)
Variable exn_message : exn -> string.

(** [rotations_unfilled_in_month] on the interval the month text gives. *)
Definition unfilled_between (df : list raw_row) (master_rotations : list string)
    (month_start month_end : Z) : list string :=
  let df_rot := _prepare_rotations_df to_datetime df in
  let in_month :=
    filter (fun r => (month_start <=? Date_dt r) && (Date_dt r <? month_end))
           df_rot in
  let filled := set_of_list (map Rotation in_month) in
  let unfilled := filter (fun r => negb (mem r filled)) master_rotations in
  let unfilled := sorted_by_lower (set_iter (set_of_list unfilled)) in
  map remove_star unfilled.

Definition cleared (status : string) : app_state := mk_state [] [] [] status.

(** The effect [_load_data] of a click on [load], with the values of the
    inputs [passkey] and [years]. *)
Definition _load_data (input_passkey : option string)
    (input_years : option (list string)) (s : app_state) : app_state :=
  let passkey := strip (or_empty input_passkey) in
  let years := match input_years with Some ys => ys | None => [] end in
  if String.eqb passkey EmptyString then cleared "No passkey entered."
  else if Nat.eqb (length years) 0
  then cleared "No academic years selected."
  else
    match download_df_multi_year read_table years passkey with
    | Raised e =>
        cleared ("Load failed (did not crash UI): " ++ exn_message e)%string
    | Returned df =>
        if Nat.eqb (length df) 0
        then cleared "Pulled 0 rows (or export empty)."
        else
          match build_master_rotations to_datetime set_iter
                  (map core_row df) with
          | None =>
              cleared ("Load failed (did not crash UI): "
                       ++ exn_message IndexError)%string
          | Some master =>
              mk_state df master []
                ("Loaded rows = " ++ str_of_int (Z.of_nat (length df))
                 ++ ", master rotations = "
                 ++ str_of_int (Z.of_nat (length master)) ++ ".")%string
          end
    end.

(** The effect [_check_month] of a click on [check], with the value of
    the input [month]. *)
Definition _check_month (input_month : option string) (s : app_state)
  : app_state :=
  let month := strip (or_empty input_month) in
  let df := df_state s in
  let master := master_state s in
  if Nat.eqb (length df) 0 || Nat.eqb (length master) 0
  then mk_state df master []
         "No data/master list loaded. Click Load / Refresh data first."
  else if negb (month_format_ok month)
  then mk_state df master []
         "Invalid month format. Use YYYY-MM (example: 2026-02)."
  else
    match month_interval month with
    | Raised e =>
        mk_state df master [] ("Check failed: " ++ exn_message e)%string
    | Returned (month_start, month_end) =>
        let unfilled :=
          unfilled_between (map core_row df) master month_start month_end in
        mk_state df master unfilled
          ("Computed openings for " ++ month ++ " (n = "
           ++ str_of_int (Z.of_nat (length unfilled)) ++ ").")%string
    end.

Inductive event : Type :=
| Load (input_passkey : option string) (input_years : option (list string))
| Check (input_month : option string).

Definition step (s : app_state) (e : event) : app_state :=
  match e with
  | Load p ys => _load_data p ys s
  | Check m => _check_month m s
  end.

(** The state after a sequence of clicks, from the state at start. *)
Definition run (events : list event) : app_state :=
  fold_left step events initial_state.

(** What holds of the reactive values between two clicks: with no frame
    there is no master list; a frame is one that a download returned, and
    the master list is the one built from it; and every reported opening
    is an entry of that master list without its stars. *)
Definition server_invariant (s : app_state) : Prop :=
  (df_state s = [] -> master_state s = [])
  /\ (df_state s <> [] ->
      (exists passkey years,
          download_df_multi_year read_table years passkey
          = Returned (df_state s))
      /\ build_master_rotations to_datetime set_iter
           (map core_row (df_state s)) = Some (master_state s))
  /\ (forall x, In x (unfilled_state s) ->
        df_state s <> []
        /\ exists r, In r (master_state s) /\ x = remove_star r).

End Server.

(** An export with one answer for every URL, and a month parser for the
    months that [valid_month] accepts. *)
Definition example_export : list amion_row :=
  map (fun d => mk_amion (Text " O'Neil ") (Text " Cards   Consult, pm ")
                         (Text d) NaN NaN (Text "Resident") NaN NaN)
      [ "2024-01-01"; "2024-01-05"; "2024-02-01"; "2024-03-01";
        "2024-03-05"; "2024-04-02" ]
  ++ [ mk_amion (Text "Lee") (Text "Wards") (Text "2024-01-02") NaN NaN
                (Text "Services") NaN NaN;
       mk_amion (Text "Lee") (Text "Wards") (Text "2024-01-03") NaN NaN
                (Text "Float*") NaN NaN;
       mk_amion NaN (Text "Wards") (Text "2024-01-04") NaN NaN
                (Text "Resident") NaN NaN ].

Definition example_read_table (url : string) : fetched := Table example_export.

Definition example_month_interval (month : string) : outcome (Z * Z) :=
  match month with
  | String y1 (String y2 (String y3 (String y4 (String _
      (String m1 (String m2 EmptyString)))))) =>
      match number [y1; y2; y3; y4], number [m1; m2] with
      | Some y, Some m =>
          if (1 <=? m) && (m <=? 12) && (- 2 ^ 63 <? month_start y m)
             && (month_end y m <? 2 ^ 63)
          then Returned (month_start y m, month_end y m)
          else Raised (LibraryError "month out of range")
      | _, _ => Raised (LibraryError "no month")
      end
  | _ => Raised (LibraryError "no month")
  end.

Definition example_exn_message (e : exn) : string :=
  match e with
  | AttributeError => "Can only use .str accessor with string values!"
  | IndexError => "index out of bounds"
  | LibraryError msg => msg
  end.

(* ================================================================= *)
(** * Properties *)

Local Open Scope list_scope.

(** ** The stable sort *)

Section SortingFacts.
Context {A : Type}.
Variable leb : A -> A -> bool.

Let le (a b : A) : Prop := leb a b = true.

Lemma insert_sorted_perm (x : A) (l : list A) :
  Permutation (insert_sorted leb x l) (x :: l).
Proof.
  induction l as [|y l IH]; simpl.
  - apply Permutation_refl.
  - destruct (leb x y).
    + apply Permutation_refl.
    + eapply perm_trans; [apply perm_skip, IH | apply perm_swap].
Qed.

Lemma stable_sort_perm (l : list A) : Permutation (stable_sort leb l) l.
Proof.
  induction l as [|x l IH]; simpl.
  - constructor.
  - eapply perm_trans; [apply insert_sorted_perm | apply perm_skip, IH].
Qed.

Lemma stable_sort_in (l : list A) (x : A) :
  In x (stable_sort leb l) <-> In x l.
Proof.
  split; apply Permutation_in;
    [apply stable_sort_perm | apply Permutation_sym, stable_sort_perm].
Qed.

Lemma stable_sort_nodup (l : list A) : NoDup l -> NoDup (stable_sort leb l).
Proof.
  intro H. eapply Permutation_NoDup; [|exact H].
  apply Permutation_sym, stable_sort_perm.
Qed.

(** Stability: the elements selected by a predicate that cannot tell
    apart two elements the order ties keep their relative order. *)
Lemma insert_sorted_filter (p : A -> bool) (x : A) (l : list A) :
  (forall y, p x = true -> p y = true -> leb x y = true) ->
  filter p (insert_sorted leb x l) = filter p (x :: l).
Proof.
  intros Hp. induction l as [|y l IH]; simpl; [reflexivity|].
  destruct (leb x y) eqn:Hxy; simpl; [reflexivity|].
  simpl in IH. rewrite IH.
  pose proof (Hp y) as Hy.
  destruct (p x), (p y); try reflexivity.
  rewrite Hy in Hxy by reflexivity. discriminate.
Qed.

Lemma stable_sort_filter (p : A -> bool) (l : list A) :
  (forall x y, p x = true -> p y = true -> leb x y = true) ->
  filter p (stable_sort leb l) = filter p l.
Proof.
  intros Hp. induction l as [|x l IH]; simpl; [reflexivity|].
  rewrite insert_sorted_filter by (intro y; apply Hp).
  simpl. rewrite IH. reflexivity.
Qed.

Hypothesis leb_total : forall a b, leb a b = true \/ leb b a = true.
Hypothesis leb_trans :
  forall a b c, leb a b = true -> leb b c = true -> leb a c = true.

Lemma insert_sorted_sorted (x : A) (l : list A) :
  StronglySorted le l -> StronglySorted le (insert_sorted leb x l).
Proof.
  induction 1 as [|y l Hs IH Hall]; simpl.
  - repeat constructor.
  - destruct (leb x y) eqn:Hxy.
    + constructor; [constructor; assumption|].
      constructor; [exact Hxy|].
      eapply Forall_impl; [|exact Hall].
      intros z Hz. exact (leb_trans _ _ _ Hxy Hz).
    + constructor; [exact IH|].
      assert (Hyx : le y x) by (destruct (leb_total x y); congruence).
      eapply Permutation_Forall;
        [apply Permutation_sym, insert_sorted_perm|].
      constructor; assumption.
Qed.

Lemma stable_sort_sorted (l : list A) : StronglySorted le (stable_sort leb l).
Proof.
  induction l as [|x l IH]; simpl.
  - constructor.
  - apply insert_sorted_sorted, IH.
Qed.

Hypothesis leb_antisym :
  forall a b, leb a b = true -> leb b a = true -> a = b.

Lemma sorted_perm_unique (l1 l2 : list A) :
  StronglySorted le l1 -> StronglySorted le l2 ->
  Permutation l1 l2 -> l1 = l2.
Proof.
  intros H1. revert l2.
  induction H1 as [|x l1 Hs1 IH Hall1]; intros l2 H2 Hp.
  - apply Permutation_nil in Hp. congruence.
  - destruct H2 as [|y l2 Hs2 Hall2].
    + apply Permutation_sym, Permutation_nil in Hp. discriminate.
    + assert (Hxy : x = y).
      { assert (Hx : In x (y :: l2))
          by (eapply Permutation_in; [exact Hp | left; reflexivity]).
        assert (Hy : In y (x :: l1))
          by (eapply Permutation_in;
              [apply Permutation_sym; exact Hp | left; reflexivity]).
        destruct Hx as [Hx|Hx]; [congruence|].
        destruct Hy as [Hy|Hy]; [congruence|].
        rewrite Forall_forall in Hall1, Hall2.
        apply leb_antisym; [apply Hall1, Hy | apply Hall2, Hx]. }
      subst y. f_equal. apply IH; [exact Hs2|].
      eapply Permutation_cons_inv; exact Hp.
Qed.

(** The result of the sort does not depend on the order of its input. *)
Lemma stable_sort_perm_eq (l1 l2 : list A) :
  Permutation l1 l2 -> stable_sort leb l1 = stable_sort leb l2.
Proof.
  intro Hp. apply sorted_perm_unique; try apply stable_sort_sorted.
  eapply perm_trans; [apply stable_sort_perm|].
  eapply perm_trans; [exact Hp|].
  apply Permutation_sym, stable_sort_perm.
Qed.
End SortingFacts.

(** ** The orders on strings and rows *)

Lemma string_compare_refl (s : string) : String.compare s s = Eq.
Proof.
  induction s as [|c s IH]; simpl; [reflexivity|].
  unfold Ascii.compare. rewrite N.compare_refl. exact IH.
Qed.

Lemma string_compare_lt_trans (a b c : string) :
  String.compare a b = Lt -> String.compare b c = Lt ->
  String.compare a c = Lt.
Proof.
  revert b c. induction a as [|x a IH]; intros [|y b] [|z c]; simpl;
    try congruence.
  unfold Ascii.compare.
  destruct (N.compare_spec (N_of_ascii x) (N_of_ascii y)) as [E1|L1|G1];
    destruct (N.compare_spec (N_of_ascii y) (N_of_ascii z)) as [E2|L2|G2];
    destruct (N.compare_spec (N_of_ascii x) (N_of_ascii z)) as [E3|L3|G3];
    try congruence; try lia.
  apply IH.
Qed.

Lemma string_leb_refl (s : string) : String.leb s s = true.
Proof. unfold String.leb. rewrite string_compare_refl. reflexivity. Qed.

Lemma string_leb_trans (a b c : string) :
  String.leb a b = true -> String.leb b c = true -> String.leb a c = true.
Proof.
  unfold String.leb.
  destruct (String.compare a b) eqn:Hab; [|intros _|discriminate].
  - apply String.compare_eq_iff in Hab. subst b. trivial.
  - destruct (String.compare b c) eqn:Hbc; [|intros _|discriminate].
    + apply String.compare_eq_iff in Hbc. subst c. rewrite Hab. trivial.
    + rewrite (string_compare_lt_trans a b c Hab Hbc). reflexivity.
Qed.

Lemma lower_leb_total (a b : string) :
  lower_leb a b = true \/ lower_leb b a = true.
Proof. apply String.leb_total. Qed.

Lemma lower_leb_trans (a b c : string) :
  lower_leb a b = true -> lower_leb b c = true -> lower_leb a c = true.
Proof. apply string_leb_trans. Qed.

(** Two names tie under the key exactly when they are equal up to letter
    case. *)
Lemma lower_leb_tie (a b : string) :
  lower_leb a b = true -> lower_leb b a = true -> lower a = lower b.
Proof. apply String.leb_antisym. Qed.

Lemma string_compare_gt_lt (a b : string) :
  String.compare a b = Gt -> String.compare b a = Lt.
Proof.
  intro H. rewrite String.compare_antisym, H. reflexivity.
Qed.

Lemma row_leb_total (a b : row) : row_leb a b = true \/ row_leb b a = true.
Proof.
  unfold row_leb.
  destruct (String.compare (Name a) (Name b)) eqn:Hn.
  - apply String.compare_eq_iff in Hn. rewrite <- Hn, string_compare_refl.
    destruct (String.compare (Rotation a) (Rotation b)) eqn:Hr.
    + apply String.compare_eq_iff in Hr.
      rewrite <- Hr, string_compare_refl. lia.
    + left; reflexivity.
    + right. rewrite (string_compare_gt_lt _ _ Hr). reflexivity.
  - left; reflexivity.
  - right. rewrite (string_compare_gt_lt _ _ Hn). reflexivity.
Qed.

Lemma row_leb_trans (a b c : row) :
  row_leb a b = true -> row_leb b c = true -> row_leb a c = true.
Proof.
  unfold row_leb.
  destruct (String.compare (Name a) (Name b)) eqn:Hab; try discriminate.
  - apply String.compare_eq_iff in Hab. rewrite Hab.
    destruct (String.compare (Name b) (Name c)) eqn:Hbc; try discriminate;
      [|trivial].
    destruct (String.compare (Rotation a) (Rotation b)) eqn:Rab;
      try discriminate.
    + apply String.compare_eq_iff in Rab. rewrite Rab.
      destruct (String.compare (Rotation b) (Rotation c)); try discriminate;
        [lia | trivial].
    + destruct (String.compare (Rotation b) (Rotation c)) eqn:Rbc;
        try discriminate.
      * apply String.compare_eq_iff in Rbc. rewrite <- Rbc, Rab. trivial.
      * rewrite (string_compare_lt_trans _ _ _ Rab Rbc). trivial.
  - intros _.
    destruct (String.compare (Name b) (Name c)) eqn:Hbc; try discriminate.
    + apply String.compare_eq_iff in Hbc. rewrite <- Hbc, Hab. trivial.
    + rewrite (string_compare_lt_trans _ _ _ Hab Hbc). trivial.
Qed.

Lemma row_leb_antisym (a b : row) :
  row_leb a b = true -> row_leb b a = true -> a = b.
Proof.
  unfold row_leb. destruct a as [na ra da], b as [nb rb db]; simpl.
  destruct (String.compare na nb) eqn:Hn; try discriminate.
  - apply String.compare_eq_iff in Hn. subst nb.
    rewrite string_compare_refl.
    destruct (String.compare ra rb) eqn:Hr; try discriminate.
    + apply String.compare_eq_iff in Hr. subst rb.
      rewrite string_compare_refl. intros H1 H2. f_equal. lia.
    + rewrite String.compare_antisym, Hr. simpl. discriminate.
  - rewrite String.compare_antisym, Hn. simpl. discriminate.
Qed.

(** Sorting the rows of a frame gives the same frame whatever the order of
    its rows was. *)
Lemma sort_values_perm_eq (df df' : list row) :
  Permutation df df' -> sort_values df = sort_values df'.
Proof.
  apply stable_sort_perm_eq;
    [apply row_leb_total | apply row_leb_trans | apply row_leb_antisym].
Qed.

(** ** The text normalizer *)

Lemma lstrip_not_space (s : string) :
  match lstrip s with
  | EmptyString => True
  | String c _ => is_space c = false
  end.
Proof.
  induction s as [|c s IH]; simpl; [exact I|].
  destruct (is_space c) eqn:Hc; [exact IH | exact Hc].
Qed.

Lemma rstrip_head (s : string) :
  match s with
  | EmptyString => True
  | String c _ =>
      is_space c = false ->
      match rstrip s with
      | EmptyString => False
      | String d _ => d = c
      end
  end.
Proof.
  destruct s as [|c s]; [exact I|]. simpl. intro Hc.
  destruct (rstrip s); [rewrite Hc|]; reflexivity.
Qed.

Lemma collapse_from_spaced (b : bool) (s : string) :
  spaced_from b (collapse_from b s) = true.
Proof.
  revert b. induction s as [|c s IH]; intro b; simpl; [reflexivity|].
  destruct (is_space c) eqn:Hc.
  - destruct b; [apply IH|]. simpl. apply IH.
  - simpl. rewrite Hc. apply IH.
Qed.

Lemma spaced_from_weaken (s : string) :
  spaced_from true s = true -> spaced_from false s = true.
Proof.
  destruct s as [|c s]; simpl; [trivial|].
  destruct (is_space c); [|trivial].
  rewrite andb_false_r. discriminate.
Qed.

Lemma spaced_from_fixed (b : bool) (s : string) :
  spaced_from b s = true -> collapse_from b s = s.
Proof.
  revert b. induction s as [|c s IH]; intro b; simpl; [reflexivity|].
  destruct (is_space c) eqn:Hc.
  - intro H. apply andb_prop in H. destruct H as [H Hs].
    apply andb_prop in H. destruct H as [Hsp Hb].
    apply Ascii.eqb_eq in Hsp. subst c.
    destruct b; [discriminate|]. f_equal. apply IH, Hs.
  - intro H. f_equal. apply IH, H.
Qed.

Lemma spaced_from_lstrip (s : string) :
  spaced_from true s = true -> lstrip s = s.
Proof.
  destruct s as [|c s]; simpl; [reflexivity|].
  destruct (is_space c); [|reflexivity].
  rewrite andb_false_r. discriminate.
Qed.

Lemma sub_ampm_suffix_spaced (b : bool) (s : string) :
  spaced_from b s = true -> spaced_from b (sub_ampm_suffix s) = true.
Proof.
  revert b. induction s as [|c s IH]; intro b; simpl; [trivial|].
  destruct ((c =? ",")%char && ampm_tail s); [reflexivity|]. simpl.
  destruct (is_space c).
  - intro H. apply andb_prop in H. destruct H as [H Hs].
    rewrite H. simpl. apply IH, Hs.
  - apply IH.
Qed.

Lemma sub_ampm_suffix_fixed (s : string) :
  has_ampm_suffix s = false -> sub_ampm_suffix s = s.
Proof.
  induction s as [|c s IH]; simpl; [reflexivity|].
  intro H. apply orb_false_elim in H. destruct H as [H1 H2].
  rewrite H1. f_equal. apply IH, H2.
Qed.

(** The text after the first two steps has no whitespace but single inner
    spaces. *)
Lemma collapse_strip_spaced (s : string) :
  spaced_from true (collapse_ws (strip s)) = true.
Proof.
  unfold collapse_ws, strip.
  pose proof (lstrip_not_space s) as Hl.
  pose proof (rstrip_head (lstrip s)) as Hr.
  destruct (lstrip s) as [|c l]; [reflexivity|].
  specialize (Hr Hl).
  destruct (rstrip (String c l)) as [|d r]; [contradiction|]. subst d.
  simpl. rewrite Hl. simpl. rewrite Hl. apply collapse_from_spaced.
Qed.

Lemma clean_spaced (x : cell) :
  spaced_from true (_clean_rotation_text x) = true.
Proof.
  unfold _clean_rotation_text.
  apply sub_ampm_suffix_spaced, collapse_strip_spaced.
Qed.

(** C7, the failing instance: with two stacked suffixes the first
    application removes only the last one, and the second application
    changes the text again. *)
Lemma C7_stacked_suffix_counterexample :
  _clean_rotation_text (Text "Rounds, am, pm") = "Rounds, am"
  /\ _clean_rotation_text (Text (_clean_rotation_text (Text "Rounds, am, pm")))
     = "Rounds"
  /\ _clean_rotation_text (Text (_clean_rotation_text (Text "Rounds, am, pm")))
     <> _clean_rotation_text (Text "Rounds, am, pm").
Proof.
  repeat split; try reflexivity. vm_compute. discriminate.
Qed.

(** C7, as amended: a second application of [_clean_rotation_text] leaves
    the result of the first unchanged whenever that result neither ends in
    whitespace nor still carries a [, am] / [, pm] suffix. *)
Theorem C7_clean_rotation_text_idempotent_when_settled (x : cell) :
  ends_with_space (_clean_rotation_text x) = false ->
  has_ampm_suffix (_clean_rotation_text x) = false ->
  _clean_rotation_text (Text (_clean_rotation_text x))
  = _clean_rotation_text x.
Proof.
  intros Hend Hsuf.
  pose proof (clean_spaced x) as Hsp.
  set (y := _clean_rotation_text x) in *.
  unfold _clean_rotation_text at 1. simpl py_str.
  unfold ends_with_space in Hend.
  apply negb_false_iff, String.eqb_eq in Hend.
  unfold strip. rewrite (spaced_from_lstrip y Hsp), Hend.
  unfold collapse_ws.
  rewrite (spaced_from_fixed false y (spaced_from_weaken y Hsp)).
  apply sub_ampm_suffix_fixed, Hsuf.
Qed.

Lemma C7_clean_rotation_text_idempotent_witness :
  ends_with_space (_clean_rotation_text (Text " Cards   Consult, PM ")) = false
  /\ has_ampm_suffix (_clean_rotation_text (Text " Cards   Consult, PM ")) = false
  /\ _clean_rotation_text (Text (_clean_rotation_text (Text " Cards   Consult, PM ")))
     = _clean_rotation_text (Text " Cards   Consult, PM ").
Proof.
  split; [reflexivity|]. split; [reflexivity|].
  apply (C7_clean_rotation_text_idempotent_when_settled
           (Text " Cards   Consult, PM ")); reflexivity.
Defined.

(** ** The record preparer *)

Section PrepareFacts.
Variable to_datetime : list cell -> list (option Z).

Local Abbreviation prepare := (_prepare_rotations_df to_datetime).

Lemma prepare_flat_map (df : list raw_row) :
  prepare df = flat_map prepare_row (_parse_date_column to_datetime df).
Proof.
  unfold _prepare_rotations_df.
  generalize (_parse_date_column to_datetime df) as l.
  induction l as [|[r d] l IH]; [reflexivity|].
  cbn [flat_map]. rewrite <- IH.
  unfold prepare_row, survives. simpl.
  destruct (String.eqb (strip (_clean_rotation_text (raw_Assignment r))) EmptyString);
    simpl; [reflexivity|].
  destruct (_EXCLUDE_RE (_clean_rotation_text (raw_Assignment r)));
    simpl; [reflexivity|].
  destruct (raw_Name r) as [n|]; simpl; [|reflexivity].
  destruct (String.eqb (strip n) EmptyString); simpl; [reflexivity|].
  destruct d; reflexivity.
Qed.

Lemma prepare_row_dropped (r : raw_row) (d : option Z) :
  survives r d = false -> prepare_row (r, d) = [].
Proof. unfold prepare_row. simpl. intros ->. reflexivity. Qed.

Lemma prepare_row_nat (r : raw_row) : prepare_row (r, None) = [].
Proof.
  apply prepare_row_dropped. unfold survives. apply andb_false_r.
Qed.

Lemma prepare_row_kept (r : raw_row) (d : option Z) :
  survives r d = true ->
  exists n t,
    raw_Name r = Text n /\ d = Some t /\
    prepare_row (r, d)
    = [mk_row n (_clean_rotation_text (raw_Assignment r)) t].
Proof.
  unfold prepare_row. simpl. intros Hs. rewrite Hs.
  unfold survives in Hs. repeat (apply andb_prop in Hs; destruct Hs as [Hs ?]).
  destruct (raw_Name r) as [n|]; [|discriminate].
  destruct d as [t|]; [|discriminate].
  exists n, t. repeat split.
Qed.

Lemma parse_date_column_rows (df : list raw_row) (r : raw_row) (d : option Z) :
  In (r, d) (_parse_date_column to_datetime df) -> In r df.
Proof. unfold _parse_date_column. apply in_combine_l. Qed.

Lemma parse_date_column_fst (df : list raw_row) :
  length (to_datetime (map raw_Date df)) = length df ->
  map fst (_parse_date_column to_datetime df) = df.
Proof.
  unfold _parse_date_column.
  generalize (to_datetime (map raw_Date df)) as ds.
  induction df as [|r df IH]; intros [|d ds] H; simpl in *;
    try reflexivity; try discriminate.
  f_equal. apply IH. congruence.
Qed.

Lemma prepare_in (df : list raw_row) (p : row) :
  In p (prepare df) ->
  exists r,
    In r df
    /\ In (r, Some (Date_dt p)) (_parse_date_column to_datetime df)
    /\ survives r (Some (Date_dt p)) = true
    /\ Rotation p = _clean_rotation_text (raw_Assignment r)
    /\ raw_Name r = Text (Name p).
Proof.
  rewrite prepare_flat_map. intro Hin. apply in_flat_map in Hin.
  destruct Hin as [[r d] [Hr Hp]].
  destruct (survives r d) eqn:Hs;
    [|rewrite (prepare_row_dropped r d Hs) in Hp; contradiction].
  destruct (prepare_row_kept r d Hs) as [n [t [Hn [Hd Hrow]]]].
  rewrite Hrow in Hp. destruct Hp as [Hp|[]]. subst p d. simpl.
  exists r. split; [exact (parse_date_column_rows df r _ Hr)|].
  split; [exact Hr|]. split; [exact Hs|]. split; [reflexivity|exact Hn].
Qed.

(** C8: [_prepare_rotations_df] keeps the frame's rows beside their cells
    of ['Date_dt'] and returns, in the frame's order, what each row
    contributes.  A row whose date did not parse ([NaT]: with
    [errors = 'coerce'] a text the parser cannot read is [NaT], not an
    error), or that fails any other of the four checks, contributes
    nothing; a row that passes contributes one row; and every row of the
    result comes from a raw row with a parsed date, a normalized rotation
    that is not blank and not excluded, and a name that is not blank. *)
Theorem C8_prepare_drops_invalid_rows (df : list raw_row) :
  length (to_datetime (map raw_Date df)) = length df ->
  map fst (_parse_date_column to_datetime df) = df
  /\ prepare df = flat_map prepare_row (_parse_date_column to_datetime df)
  /\ (forall r, prepare_row (r, None) = [])
  /\ (forall r d, survives r d = false -> prepare_row (r, d) = [])
  /\ (forall r d,
      survives r d = true ->
      exists n t,
        raw_Name r = Text n /\ d = Some t
        /\ prepare_row (r, d)
           = [mk_row n (_clean_rotation_text (raw_Assignment r)) t])
  /\ (forall p,
      In p (prepare df) ->
      exists r,
        In r df
        /\ In (r, Some (Date_dt p)) (_parse_date_column to_datetime df)
        /\ Rotation p = _clean_rotation_text (raw_Assignment r)
        /\ strip (Rotation p) <> EmptyString /\ Rotation p <> EmptyString
        /\ _EXCLUDE_RE (Rotation p) = false
        /\ raw_Name r = Text (Name p)
        /\ strip (Name p) <> EmptyString /\ Name p <> EmptyString)
  /\ (forall (fmt : Type) (guess_format : string -> option fmt)
             (parse_with : option fmt -> string -> parsed)
             (col : list cell),
      length (column_parser guess_format parse_with col) = length col
      /\ forall i s,
        nth_error col i = Some (Text s) ->
        parse_with (inferred_format guess_format col) s = Unparsable ->
        nth_error (column_parser guess_format parse_with col) i = Some None).
Proof.
  intro Hlen.
  split; [exact (parse_date_column_fst df Hlen)|].
  split; [apply prepare_flat_map|].
  split; [exact prepare_row_nat|].
  split; [exact prepare_row_dropped|].
  split; [exact prepare_row_kept|].
  split.
  - intros p Hin.
    destruct (prepare_in df p Hin) as [r [Hr [Hrd [Hs [Hrot Hn]]]]].
    exists r. split; [exact Hr|]. split; [exact Hrd|].
    unfold survives in Hs. rewrite Hn, <- Hrot in Hs. simpl in Hs.
    repeat (apply andb_prop in Hs; destruct Hs as [Hs ?]).
    repeat match goal with
           | H : negb _ = true |- _ => apply negb_true_iff in H
           end.
    repeat match goal with
           | H : String.eqb _ _ = false |- _ => apply String.eqb_neq in H
           end.
    repeat split; try assumption.
    + intro E. rewrite E in Hs. apply Hs. reflexivity.
    + intro E. rewrite E in *. auto.
  - intros fmt guess_format parse_with col. unfold column_parser.
    split; [apply length_map|].
    intros i s Hi Hp. rewrite nth_error_map, Hi. simpl. rewrite Hp.
    reflexivity.
Qed.
End PrepareFacts.

Lemma C8_prepare_drops_invalid_rows_witness :
  _prepare_rotations_df iso_to_datetime
    [mk_raw (Text "Avery") (Text "ICU") (Text "soon");
     mk_raw (Text "Avery") (Text "ICU") (Text "2024-01-01")]
  = [mk_row "Avery" "ICU" 1704067200000000000].
Proof.
  destruct (C8_prepare_drops_invalid_rows iso_to_datetime
              [mk_raw (Text "Avery") (Text "ICU") (Text "soon");
               mk_raw (Text "Avery") (Text "ICU") (Text "2024-01-01")]
              eq_refl) as [_ [H _]].
  rewrite H. vm_compute. reflexivity.
Defined.

(** ** Reading the date column *)

Section CellwiseFacts.
Variable f : cell -> option Z.

Lemma parse_date_column_map (df : list raw_row) :
  _parse_date_column (map f) df = map (fun r => (r, f (raw_Date r))) df.
Proof.
  unfold _parse_date_column.
  induction df as [|r df IH]; simpl; [reflexivity|]. f_equal. exact IH.
Qed.

Lemma prepare_cellwise (df : list raw_row) :
  _prepare_rotations_df (map f) df
  = flat_map (fun r => prepare_row (r, f (raw_Date r))) df.
Proof.
  rewrite prepare_flat_map, parse_date_column_map.
  induction df as [|r df IH]; simpl; [reflexivity|]. f_equal. exact IH.
Qed.

Lemma prepare_cellwise_app (df1 df2 : list raw_row) :
  _prepare_rotations_df (map f) (df1 ++ df2)
  = _prepare_rotations_df (map f) df1 ++ _prepare_rotations_df (map f) df2.
Proof. rewrite !prepare_cellwise. apply flat_map_app. Qed.

Lemma prepare_cellwise_perm (df df' : list raw_row) :
  Permutation df df' ->
  Permutation (_prepare_rotations_df (map f) df)
              (_prepare_rotations_df (map f) df').
Proof.
  intro H. rewrite !prepare_cellwise.
  induction H; simpl.
  - constructor.
  - apply Permutation_app_head. assumption.
  - rewrite !app_assoc. apply Permutation_app_tail, Permutation_app_comm.
  - eapply perm_trans; eassumption.
Qed.

Lemma prepare_cellwise_ext (g : cell -> option Z) (df : list raw_row) :
  (forall r, In r df -> f (raw_Date r) = g (raw_Date r)) ->
  _prepare_rotations_df (map f) df = _prepare_rotations_df (map g) df.
Proof.
  intro H. rewrite (prepare_cellwise df).
  rewrite (prepare_flat_map (map g) df).
  unfold _parse_date_column.
  induction df as [|r df IH]; simpl; [reflexivity|].
  rewrite (H r (or_introl eq_refl)). f_equal.
  apply IH. intros r' Hr'. apply H. right. exact Hr'.
Qed.
End CellwiseFacts.

Section ColumnFacts.
Context {fmt : Type}.
Variable guess_format : string -> option fmt.
Variable parse_with : option fmt -> string -> parsed.

Local Abbreviation to_datetime := (column_parser guess_format parse_with).
Local Abbreviation format_of df :=
  (inferred_format guess_format (map raw_Date df)).

Lemma prepare_column (df : list raw_row) :
  _prepare_rotations_df to_datetime df
  = _prepare_rotations_df (map (to_datetime_cell parse_with (format_of df)))
                          df.
Proof. reflexivity. Qed.

Lemma first_non_null_app (col col' : list cell) (c : cell) :
  first_non_null col = Some c -> first_non_null (col ++ col') = Some c.
Proof.
  unfold first_non_null.
  induction col as [|x col IH]; simpl; [discriminate|].
  destruct (notna x); [trivial|exact IH].
Qed.

Lemma first_non_null_none (col : list cell) :
  first_non_null col = None -> forall c, In c col -> c = NaN.
Proof.
  unfold first_non_null. intros H c Hc.
  pose proof (find_none _ _ H c Hc) as Hn.
  destruct c; [discriminate|reflexivity].
Qed.

(** Rows added at the end leave the first dated cell, and so the reading
    of the earlier rows, as they were. *)
Lemma prepare_column_prefix (df extra : list raw_row) :
  exists rest,
    _prepare_rotations_df to_datetime (df ++ extra)
    = _prepare_rotations_df to_datetime df ++ rest.
Proof.
  rewrite (prepare_column (df ++ extra)), (prepare_column df).
  rewrite prepare_cellwise_app. eexists. f_equal.
  rewrite map_app.
  destruct (first_non_null (map raw_Date df)) as [c|] eqn:E.
  - unfold inferred_format.
    rewrite (first_non_null_app _ (map raw_Date extra) c E), E.
    reflexivity.
  - apply prepare_cellwise_ext. intros r Hr.
    rewrite (first_non_null_none _ E (raw_Date r) (in_map raw_Date _ _ Hr)).
    reflexivity.
Qed.

Lemma prepare_column_perm (df df' : list raw_row) :
  Permutation df df' ->
  format_of df = format_of df' ->
  Permutation (_prepare_rotations_df to_datetime df)
              (_prepare_rotations_df to_datetime df').
Proof.
  intros Hp Hf. rewrite (prepare_column df), (prepare_column df'), Hf.
  apply prepare_cellwise_perm. exact Hp.
Qed.

(** When every dated cell leads to the same guess, the order of the rows
    does not change the format of the column. *)
Lemma first_non_null_some (col : list cell) (c : cell) :
  first_non_null col = Some c -> In c col /\ exists s, c = Text s.
Proof.
  unfold first_non_null. intro H. apply find_some in H.
  destruct H as [Hin Hn]. split; [exact Hin|].
  destruct c as [s|]; [exists s; reflexivity|discriminate].
Qed.

Lemma uniform_format_perm (df df' : list raw_row) (f : option fmt) :
  Permutation df df' ->
  (forall r s, In r df -> raw_Date r = Text s -> guess_format s = f) ->
  format_of df = format_of df'.
Proof.
  intros Hp Hu.
  assert (Hcol : Permutation (map raw_Date df) (map raw_Date df'))
    by (apply Permutation_map; exact Hp).
  assert (Hg : forall col,
             Permutation (map raw_Date df) col ->
             inferred_format guess_format col
             = match first_non_null col with
               | Some _ => f
               | None => None
               end).
  { intros col Hc. unfold inferred_format.
    destruct (first_non_null col) as [c|] eqn:E; [|reflexivity].
    destruct (first_non_null_some col c E) as [Hin [s ->]].
    apply (Permutation_in _ (Permutation_sym Hc)) in Hin.
    apply in_map_iff in Hin. destruct Hin as [r [Hr Hin]].
    exact (Hu r s Hin Hr). }
  rewrite (Hg _ (Permutation_refl _)), (Hg _ Hcol).
  destruct (first_non_null (map raw_Date df)) as [c|] eqn:E;
    destruct (first_non_null (map raw_Date df')) as [c'|] eqn:E';
    try reflexivity.
  - destruct (first_non_null_some _ c E) as [Hin [s ->]].
    apply (Permutation_in _ Hcol) in Hin.
    pose proof (first_non_null_none _ E' _ Hin). discriminate.
  - destruct (first_non_null_some _ c' E') as [Hin [s ->]].
    apply (Permutation_in _ (Permutation_sym Hcol)) in Hin.
    pose proof (first_non_null_none _ E _ Hin). discriminate.
Qed.
End ColumnFacts.

Section MissingAssignment.
Variable to_datetime : list cell -> list (option Z).

(** C10: a raw row whose assignment is missing gets the rotation name
    [nan]; with a name that is not blank and a date that parses it passes
    the four checks and is a row of the prepared frame, and six such rows
    within 92 days put [nan] on the master list. *)
Theorem C10_missing_assignment_survives_as_nan
    (df : list raw_row) (r : raw_row) (n : string) (d : Z) :
  raw_Assignment r = NaN ->
  raw_Name r = Text n ->
  strip n <> EmptyString ->
  In (r, Some d) (_parse_date_column to_datetime df) ->
  In r df
  /\ _clean_rotation_text (raw_Assignment r) = "nan"
  /\ strip "nan" <> EmptyString
  /\ _EXCLUDE_RE "nan" = false
  /\ survives r (Some d) = true
  /\ In (mk_row n "nan" d) (_prepare_rotations_df to_datetime df)
  /\ build_master_rotations iso_to_datetime insertion_order nan_frame
     = Some ["nan"].
Proof.
  intros Ha Hn Hs Hd.
  assert (Hsurv : survives r (Some d) = true).
  { unfold survives. rewrite Ha, Hn. simpl py_str.
    apply String.eqb_neq in Hs. rewrite Hs. reflexivity. }
  split; [exact (parse_date_column_rows to_datetime df r _ Hd)|].
  split; [rewrite Ha; reflexivity|].
  split; [discriminate|].
  split; [reflexivity|].
  split; [exact Hsurv|].
  split; [|vm_compute; reflexivity].
  rewrite prepare_flat_map. apply in_flat_map. exists (r, Some d).
  split; [exact Hd|].
  unfold prepare_row. simpl. rewrite Hsurv, Hn, Ha. left. reflexivity.
Qed.
End MissingAssignment.

Lemma C10_missing_assignment_witness :
  In (mk_row "Avery" "nan" 1704067200000000000)
     (_prepare_rotations_df iso_to_datetime nan_frame).
Proof.
  destruct (C10_missing_assignment_survives_as_nan iso_to_datetime nan_frame
              (mk_raw (Text "Avery") NaN (Text "2024-01-01")) "Avery"
              1704067200000000000) as [_ [_ [_ [_ [_ [H _]]]]]].
  - reflexivity.
  - reflexivity.
  - simpl. discriminate.
  - vm_compute. left. reflexivity.
  - exact H.
Defined.

(** ** The sliding window *)

Lemma wrap64_small (z : Z) : - 2 ^ 63 <= z < 2 ^ 63 -> wrap64 z = z.
Proof.
  intro H. unfold wrap64. rewrite Z.mod_small; lia.
Qed.

Lemma skipn_cons_nth (t : list Z) (i : nat) (x : Z) (rest : list Z) :
  skipn i t = x :: rest ->
  (i < length t)%nat /\ nth i t 0 = x /\ skipn (S i) t = rest.
Proof.
  revert i. induction t as [|y t IH]; intros i H.
  - destruct i; discriminate.
  - destruct i as [|i].
    + simpl in H. inversion H; subst. simpl. repeat split; lia.
    + simpl in H. destruct (IH i H) as [H1 [H2 H3]].
      simpl. repeat split; [lia | exact H2 | exact H3].
Qed.

Lemma skipn_nil_length (t : list Z) (i : nat) :
  skipn i t = [] -> (length t <= i)%nat.
Proof.
  revert i. induction t as [|y t IH]; intros i H; simpl; [lia|].
  destruct i; [discriminate|]. simpl in H. apply IH in H. lia.
Qed.

Section Window.
Variable w : Z.
Variable t : list Z.
Hypothesis w_nonneg : 0 <= w.
Hypothesis t_ascending : ascending t.
Hypothesis t_no_overflow : no_overflow t.

Lemma diff_exact (i j : nat) :
  (i < length t)%nat -> (j < length t)%nat ->
  wrap64 (nth j t 0 - nth i t 0) = nth j t 0 - nth i t 0.
Proof.
  intros Hi Hj. apply wrap64_small.
  pose proof (t_no_overflow _ _ (nth_In t 0 Hi) (nth_In t 0 Hj)).
  pose proof (t_no_overflow _ _ (nth_In t 0 Hj) (nth_In t 0 Hi)).
  lia.
Qed.

(** The [while] loop stops at the first index from [i] on whose date is
    within [w] of [t[j]], and never runs past [j]. *)
Lemma advance_spec (j : nat) (suffix : list Z) (i : nat) :
  (j < length t)%nat -> (i <= j)%nat -> suffix = skipn i t ->
  exists i',
    advance w (nth j t 0) suffix i = Some i'
    /\ (i <= i' <= j)%nat
    /\ nth j t 0 - nth i' t 0 <= w
    /\ (forall k, (i <= k < i')%nat -> nth j t 0 - nth k t 0 > w).
Proof.
  intro Hj. revert i.
  induction suffix as [|x rest IH]; intros i Hi Hs.
  - symmetry in Hs. apply skipn_nil_length in Hs. lia.
  - symmetry in Hs. destruct (skipn_cons_nth _ _ _ _ Hs) as [Hlen [Hx Hrest]].
    subst x. simpl. rewrite (diff_exact i j Hlen Hj).
    destruct (nth j t 0 - nth i t 0 >? w) eqn:Hgt.
    + apply Z.gtb_lt in Hgt.
      assert (Hne : i <> j) by (intro; subst; lia).
      destruct (IH (S i)) as [i' [Ha [Hb [Hc Hd]]]];
        [lia | symmetry; exact Hrest |].
      exists i'. split; [exact Ha|]. split; [lia|]. split; [exact Hc|].
      intros k Hk. destruct (Nat.eq_dec k i) as [->|Hki]; [lia|].
      apply Hd. lia.
    + exists i. split; [reflexivity|]. split; [lia|].
      split; [|intros; lia].
      destruct (Z.gtb_spec (nth j t 0 - nth i t 0) w); [discriminate|lia].
Qed.

(** The [for] loop from [j] on, entered with left index [i] below which
    no date can be in a window that ends at [j] or later: it returns, and
    it answers [true] exactly when some window of [n] dates ends at [j]
    or later. *)
Lemma scan_spec (n cnt j i : nat) :
  (1 <= n)%nat ->
  (j + cnt = length t)%nat -> (i <= j)%nat ->
  (forall k j', (k < i)%nat -> (j <= j' < length t)%nat ->
                nth j' t 0 - nth k t 0 > w) ->
  exists b,
    scan (Z.of_nat n) w t (seq j cnt) i = Some b
    /\ (b = true <->
        exists i0 j0, (j <= j0 < length t)%nat /\ (i0 + n <= j0 + 1)%nat
                      /\ nth j0 t 0 - nth i0 t 0 <= w).
Proof.
  intro Hn. revert j i.
  induction cnt as [|cnt IH]; intros j i Hlen Hij Hlow.
  - exists false. split; [reflexivity|]. split; [discriminate|].
    intros [i0 [j0 [H _]]]. lia.
  - assert (Hj : (j < length t)%nat) by lia.
    simpl. rewrite (nth_error_nth' t 0 Hj).
    destruct (advance_spec j (skipn i t) i Hj Hij eq_refl)
      as [i' [Ha [Hb [Hc Hd]]]].
    rewrite Ha.
    destruct (Z.of_nat j - Z.of_nat i' + 1 >=? Z.of_nat n) eqn:Hge.
    + exists true. split; [reflexivity|]. split; [|reflexivity].
      intros _. exists i', j. apply Z.geb_le in Hge.
      split; [lia|]. split; [lia | exact Hc].
    + assert (Hlt : Z.of_nat j - Z.of_nat i' + 1 < Z.of_nat n).
      { destruct (Z.geb_spec (Z.of_nat j - Z.of_nat i' + 1) (Z.of_nat n));
          [discriminate | lia]. }
      assert (Hlow' : forall k j', (k < i')%nat ->
                 (j <= j' < length t)%nat -> nth j' t 0 - nth k t 0 > w).
      { intros k j' Hk Hj'.
        destruct (Nat.lt_ge_cases k i) as [Hki|Hki]; [apply Hlow; lia|].
        assert (nth j t 0 - nth k t 0 > w) by (apply Hd; lia).
        assert (nth j t 0 <= nth j' t 0) by (apply t_ascending; lia).
        lia. }
      destruct (IH (S j) i') as [b [Hs Hiff]]; [lia | lia | |].
      { intros k j' Hk Hj'. apply Hlow'; lia. }
      exists b. split; [exact Hs|].
      rewrite Hiff. split.
      * intros [i0 [j0 [H1 [H2 H3]]]]. exists i0, j0.
        split; [lia|]. split; assumption.
      * intros [i0 [j0 [H1 [H2 H3]]]]. exists i0, j0.
        split; [|split; assumption].
        destruct (Nat.eq_dec j0 j) as [->|Hne]; [|lia].
        destruct (Nat.lt_ge_cases i0 i') as [Hlo|Hhi]; [|lia].
        assert (nth j t 0 - nth i0 t 0 > w) by (apply Hlow'; lia).
        lia.
Qed.
End Window.

(** On an ascending group no difference of which overflows, the scan
    returns, and it qualifies the group exactly when some [n] of its dates
    lie in a window of span at most [window_days] days. *)
Lemma group_qualifies_spec (n : nat) (window_days : Z) (t : list Z) :
  (1 <= n)%nat -> 0 <= window_days -> ascending t -> no_overflow t ->
  exists b,
    group_qualifies (Z.of_nat n) window_days t = Some b
    /\ (b = true <-> fits_window n (window_days * day_ns) t).
Proof.
  intros Hn Hw Hasc Hov. unfold group_qualifies.
  replace (window_days * 24 * 60 * 60 * 1000000000)
    with (window_days * day_ns) by (unfold day_ns; lia).
  assert (Hw' : 0 <= window_days * day_ns) by (unfold day_ns; lia).
  destruct (scan_spec (window_days * day_ns) t Hw' Hasc Hov n (length t) 0 0 Hn)
    as [b [Hs Hiff]]; [reflexivity | lia | intros; lia |].
  exists b. split; [exact Hs|]. rewrite Hiff. unfold fits_window.
  split; intros [i0 [j0 H]]; exists i0, j0.
  - destruct H as [H1 [H2 H3]]. repeat split; (lia || assumption).
  - destruct H as [H1 [H2 H3]]. repeat split; (lia || assumption).
Qed.

(** ** Groups *)

Lemma key_eqb_eq (k k' : string * string) : key_eqb k k' = true <-> k = k'.
Proof.
  destruct k as [a b], k' as [a' b']. unfold key_eqb. simpl.
  rewrite andb_true_iff, !String.eqb_eq. split.
  - intros [-> ->]. reflexivity.
  - intro H. inversion H. split; reflexivity.
Qed.

Lemma first_seen_in (ks : list (string * string)) (k : string * string) :
  In k (first_seen ks) <-> In k ks.
Proof.
  induction ks as [|k0 ks IH]; simpl; [tauto|].
  rewrite filter_In, IH. split.
  - intros [H|[H _]]; [left | right]; assumption.
  - intros [H|H]; [left; assumption|].
    destruct (key_eqb k0 k) eqn:E.
    + left. apply key_eqb_eq. exact E.
    + right. split; [assumption | reflexivity].
Qed.

Lemma first_seen_nodup (ks : list (string * string)) : NoDup (first_seen ks).
Proof.
  induction ks as [|k0 ks IH]; simpl; constructor.
  - rewrite filter_In. intros [_ H].
    assert (E : key_eqb k0 k0 = true) by (apply key_eqb_eq; reflexivity).
    rewrite E in H. discriminate.
  - apply NoDup_filter, IH.
Qed.

Lemma groupby_in (df : list row) (k : string * string) (g : list row) :
  In (k, g) (groupby df) <->
  In k (map (fun r => (Name r, Rotation r)) df) /\ g = filter (same_key k) df.
Proof.
  unfold groupby. rewrite in_map_iff. split.
  - intros [k' [E H]]. inversion E; subst. rewrite first_seen_in in H.
    split; [exact H | reflexivity].
  - intros [H ->]. exists k. split; [reflexivity|].
    rewrite first_seen_in. exact H.
Qed.

Lemma strongly_sorted_filter {A : Type} (R : A -> A -> Prop) (p : A -> bool)
    (l : list A) :
  StronglySorted R l -> StronglySorted R (filter p l).
Proof.
  induction 1 as [|x l Hs IH Hall]; simpl; [constructor|].
  destruct (p x); [|exact IH].
  constructor; [exact IH|].
  rewrite Forall_forall in *. intros y Hy. apply filter_In in Hy.
  apply Hall, Hy.
Qed.

Lemma strongly_sorted_ascending (t : list Z) :
  StronglySorted Z.le t -> ascending t.
Proof.
  induction 1 as [|x t Hs IH Hall]; intros i j Hij Hj; simpl in Hj; [lia|].
  destruct i as [|i], j as [|j]; simpl; try lia.
  - rewrite Forall_forall in Hall. apply Hall, nth_In. lia.
  - apply IH; lia.
Qed.

Lemma same_key_row_leb (k : string * string) (a b : row) :
  same_key k a = true -> same_key k b = true -> row_leb a b = true ->
  Date_dt a <= Date_dt b.
Proof.
  unfold same_key, row_leb. rewrite !andb_true_iff, !String.eqb_eq.
  intros [Ha1 Ha2] [Hb1 Hb2]. rewrite <- Ha1, <- Hb1, <- Ha2, <- Hb2.
  rewrite !string_compare_refl. apply Z.leb_le.
Qed.

Lemma Zleb_total (a b : Z) : (a <=? b) = true \/ (b <=? a) = true.
Proof. rewrite !Z.leb_le. lia. Qed.

Lemma Zleb_trans (a b c : Z) :
  (a <=? b) = true -> (b <=? c) = true -> (a <=? c) = true.
Proof. rewrite !Z.leb_le. lia. Qed.

Lemma Zleb_antisym (a b : Z) :
  (a <=? b) = true -> (b <=? a) = true -> a = b.
Proof. rewrite !Z.leb_le. lia. Qed.

Lemma permutation_filter {A : Type} (p : A -> bool) (l l' : list A) :
  Permutation l l' -> Permutation (filter p l) (filter p l').
Proof.
  induction 1 as [|x l l' H IH|x y l|l l' l'' H1 IH1 H2 IH2]; simpl.
  - constructor.
  - destruct (p x); [apply perm_skip|]; exact IH.
  - destruct (p x), (p y); try apply Permutation_refl. apply perm_swap.
  - eapply perm_trans; eassumption.
Qed.

Lemma strongly_sorted_map {A B : Type} (R : A -> A -> Prop)
    (R' : B -> B -> Prop) (f : A -> B) (l : list A) :
  (forall a b, In a l -> In b l -> R a b -> R' (f a) (f b)) ->
  StronglySorted R l -> StronglySorted R' (map f l).
Proof.
  intros Hf Hs. induction Hs as [|x l Hs IH Hall]; simpl; constructor.
  - apply IH. intros a b Ha Hb. apply Hf; right; assumption.
  - rewrite Forall_forall in *. intros d Hd. apply in_map_iff in Hd.
    destruct Hd as [y [<- Hy]].
    apply Hf; [left; reflexivity | right; exact Hy | apply Hall, Hy].
Qed.

(** The dates the code hands to the scan for the group [k] are the
    ascending dates of the group. *)
Lemma sorted_group_dates (df : list row) (k : string * string) :
  map Date_dt (filter (same_key k) (sort_values df)) = group_dates df k.
Proof.
  unfold group_dates.
  apply (sorted_perm_unique Z.leb Zleb_antisym).
  - apply (strongly_sorted_map (fun a b => row_leb a b = true)).
    + intros a b Ha Hb Hab. apply filter_In in Ha, Hb. apply Z.leb_le.
      apply (same_key_row_leb k); tauto.
    + apply strongly_sorted_filter.
      apply (stable_sort_sorted row_leb row_leb_total row_leb_trans).
  - apply (stable_sort_sorted Z.leb Zleb_total Zleb_trans).
  - eapply perm_trans;
      [|apply Permutation_sym, (stable_sort_perm Z.leb)].
    apply Permutation_map, permutation_filter, (stable_sort_perm row_leb).
Qed.

Lemma group_dates_ascending (df : list row) (k : string * string) :
  ascending (group_dates df k).
Proof.
  apply strongly_sorted_ascending.
  pose proof (stable_sort_sorted Z.leb Zleb_total Zleb_trans
                (map Date_dt (filter (same_key k) df))) as H.
  unfold group_dates.
  induction H as [|x l Hs IH Hall]; constructor; [exact IH|].
  eapply Forall_impl; [|exact Hall]. intros a Ha. apply Z.leb_le, Ha.
Qed.

(** ** The detector *)

Lemma mem_in (x : string) (s : list string) : mem x s = true <-> In x s.
Proof.
  unfold mem. rewrite existsb_exists. split.
  - intros [y [Hy E]]. apply String.eqb_eq in E. subst y. exact Hy.
  - intro H. exists x. split; [exact H | apply String.eqb_refl].
Qed.

Lemma set_add_in (x y : string) (s : list string) :
  In x (set_add y s) <-> x = y \/ In x s.
Proof.
  unfold set_add. destruct (mem y s) eqn:E.
  - apply mem_in in E. split; [tauto|]. intros [->|H]; assumption.
  - rewrite in_app_iff. simpl. split; intros [H|H]; auto.
    destruct H as [H|[]]; auto.
Qed.

Lemma set_add_nodup (y : string) (s : list string) :
  NoDup s -> NoDup (set_add y s).
Proof.
  intro H. unfold set_add. destruct (mem y s) eqn:E; [exact H|].
  apply NoDup_app; [exact H | repeat constructor; auto |].
  intros a Ha [Hy|[]]. subst a. apply mem_in in Ha. congruence.
Qed.

Lemma set_of_list_spec (xs : list string) :
  NoDup (set_of_list xs) /\ forall x, In x (set_of_list xs) <-> In x xs.
Proof.
  unfold set_of_list.
  assert (H : forall acc, NoDup acc ->
            NoDup (fold_left (fun s x => set_add x s) xs acc)
            /\ forall x, In x (fold_left (fun s x => set_add x s) xs acc)
                         <-> In x acc \/ In x xs).
  { induction xs as [|y xs IH]; intros acc Hacc; simpl.
    - split; [exact Hacc | tauto].
    - destruct (IH (set_add y acc) (set_add_nodup y acc Hacc)) as [H1 H2].
      split; [exact H1|]. intro x. rewrite H2, set_add_in.
      split; [intros [[->|H]|H] | intros [H|[->|H]]]; auto. }
  destruct (H [] (NoDup_nil _)) as [H1 H2].
  split; [exact H1|]. intro x. rewrite H2. simpl. tauto.
Qed.

(** The [while] loop never reads past [t[j]], whatever the dates are: at
    [i = j] the difference is zero. *)
Lemma advance_total (w tj : Z) (t : list Z) (j : nat) (suffix : list Z)
    (i : nat) :
  0 <= w -> (j < length t)%nat -> nth j t 0 = tj -> (i <= j)%nat ->
  suffix = skipn i t ->
  exists i', advance w tj suffix i = Some i' /\ (i <= i' <= j)%nat.
Proof.
  intros Hw Hj Htj. revert i.
  induction suffix as [|x rest IH]; intros i Hi Hs.
  - symmetry in Hs. apply skipn_nil_length in Hs. lia.
  - symmetry in Hs. destruct (skipn_cons_nth _ _ _ _ Hs) as [Hlen [Hx Hrest]].
    simpl. destruct (wrap64 (tj - x) >? w) eqn:Hgt.
    + assert (Hne : i <> j).
      { intro E. subst i. rewrite Htj in Hx. subst x.
        rewrite Z.sub_diag in Hgt. change (wrap64 0) with 0 in Hgt.
        apply Z.gtb_lt in Hgt. lia. }
      destruct (IH (S i)) as [i' [Ha Hb]]; [lia | symmetry; exact Hrest|].
      exists i'. split; [exact Ha | lia].
    + exists i. split; [reflexivity | lia].
Qed.

Lemma scan_total (m w : Z) (t : list Z) (cnt j i : nat) :
  0 <= w -> (j + cnt = length t)%nat -> (i <= j)%nat ->
  exists b, scan m w t (seq j cnt) i = Some b.
Proof.
  intro Hw. revert j i. induction cnt as [|cnt IH]; intros j i Hlen Hij.
  - exists false. reflexivity.
  - assert (Hj : (j < length t)%nat) by lia.
    simpl. rewrite (nth_error_nth' t 0 Hj).
    destruct (advance_total w (nth j t 0) t j (skipn i t) i Hw Hj eq_refl
                Hij eq_refl) as [i' [Ha Hb]].
    rewrite Ha. destruct (Z.of_nat j - Z.of_nat i' + 1 >=? m).
    + exists true. reflexivity.
    + apply IH; lia.
Qed.

(** The scan of a group returns, whatever its dates are. *)
Lemma group_qualifies_total (m window_days : Z) (t : list Z) :
  0 <= window_days -> exists b, group_qualifies m window_days t = Some b.
Proof.
  intro Hw. unfold group_qualifies. apply scan_total; lia.
Qed.

Lemma detect_groups_spec (m window_days : Z)
    (groups : list ((string * string) * list row)) (q : list string) :
  0 <= window_days ->
  exists q',
    detect_groups m window_days groups q = Some q'
    /\ (NoDup q -> NoDup q')
    /\ forall x, In x q' <->
         In x q \/
         exists k g, In (k, g) groups /\ snd k = x
                     /\ group_qualifies m window_days (map Date_dt g)
                        = Some true.
Proof.
  intro Hw. revert q.
  induction groups as [|[k g] groups IH]; intro q; simpl.
  - exists q. split; [reflexivity|]. split; [trivial|].
    intro x. split; [auto|]. intros [H|[k [g [[] _]]]]. exact H.
  - destruct (group_qualifies_total m window_days (map Date_dt g) Hw)
      as [b Hb].
    rewrite Hb. destruct b.
    + destruct (IH (set_add (snd k) q)) as [q' [H1 [H2 H3]]].
      exists q'. split; [exact H1|].
      split; [intro Hq; apply H2, set_add_nodup, Hq|].
      intro x. rewrite H3, set_add_in. split.
      * intros [[Hx|Hx]|[k' [g' [Hin [Hk Hg]]]]].
        -- right. exists k, g. split; [left; reflexivity|].
           split; [symmetry; exact Hx | exact Hb].
        -- left. exact Hx.
        -- right. exists k', g'. split; [right; exact Hin|]. split; assumption.
      * intros [Hx|[k' [g' [[Hin|Hin] [Hk Hg]]]]].
        -- left. right. exact Hx.
        -- inversion Hin; subst. left. left. reflexivity.
        -- right. exists k', g'. split; [exact Hin|]. split; assumption.
    + destruct (IH q) as [q' [H1 [H2 H3]]].
      exists q'. split; [exact H1|]. split; [exact H2|].
      intro x. rewrite H3. split.
      * intros [Hx|[k' [g' [Hin [Hk Hg]]]]]; [left; exact Hx|].
        right. exists k', g'. split; [right; exact Hin|]. split; assumption.
      * intros [Hx|[k' [g' [[Hin|Hin] [Hk Hg]]]]]; [left; exact Hx| |].
        -- inversion Hin; subst. congruence.
        -- right. exists k', g'. split; [exact Hin|]. split; assumption.
Qed.

Lemma group_qualifies_nil (m window_days : Z) :
  group_qualifies m window_days [] = Some false.
Proof. reflexivity. Qed.

(** The detector returns a duplicate-free set, and a rotation is in it
    exactly when the scan accepts the ascending dates of the group of that
    rotation with some person. *)
Lemma rotations_with_repeat_use_spec (df : list row) (m window_days : Z) :
  0 <= window_days ->
  exists q,
    _rotations_with_repeat_use df m window_days = Some q
    /\ NoDup q
    /\ forall rot, In rot q <->
         exists person,
           group_qualifies m window_days (group_dates df (person, rot))
           = Some true.
Proof.
  intro Hw. unfold _rotations_with_repeat_use.
  destruct (detect_groups_spec m window_days (groupby (sort_values df)) [] Hw)
    as [q [H1 [H2 H3]]].
  exists q. split; [exact H1|]. split; [apply H2; constructor|].
  intro rot. rewrite H3. split.
  - intros [[]|[k [g [Hin [Hk Hg]]]]].
    apply groupby_in in Hin. destruct Hin as [_ ->].
    rewrite sorted_group_dates in Hg.
    destruct k as [person r]. simpl in Hk. subst r.
    exists person. exact Hg.
  - intros [person Hg]. right.
    exists (person, rot), (filter (same_key (person, rot)) (sort_values df)).
    split; [|split; [reflexivity | rewrite sorted_group_dates; exact Hg]].
    apply groupby_in. split; [|reflexivity].
    rewrite <- sorted_group_dates in Hg.
    destruct (filter (same_key (person, rot)) (sort_values df))
      as [|r0 l] eqn:E; [discriminate|].
    assert (Hr : In r0 (filter (same_key (person, rot)) (sort_values df)))
      by (rewrite E; left; reflexivity).
    apply filter_In in Hr. destruct Hr as [Hr Hk].
    apply in_map_iff. exists r0. split; [|exact Hr].
    unfold same_key in Hk. simpl in Hk.
    apply andb_true_iff in Hk. destruct Hk as [Hn Hro].
    apply String.eqb_eq in Hn, Hro. congruence.
Qed.

Lemma group_dates_in (df : list row) (k : string * string) (x : Z) :
  In x (group_dates df k) -> In x (map Date_dt df).
Proof.
  unfold group_dates. rewrite stable_sort_in, !in_map_iff.
  intros [r [E Hr]]. apply filter_In in Hr. exists r. tauto.
Qed.

Lemma group_qualifies_fits (df : list row) (k : string * string) :
  no_overflow (map Date_dt df) ->
  group_qualifies 6 92 (group_dates df k) = Some true
  <-> fits_window 6 (92 * day_ns) (group_dates df k).
Proof.
  intro Hov.
  destruct (group_qualifies_spec 6 92 (group_dates df k)) as [b [Hb Hiff]];
    [lia | lia | apply group_dates_ascending | |].
  { intros x y Hx Hy. apply Hov; eapply group_dates_in; eassumption. }
  change (Z.of_nat 6) with 6 in Hb. rewrite Hb, <- Hiff.
  split; [intro H; inversion H; reflexivity | intros ->; reflexivity].
Qed.

(** The boundary of the window on a group of six dates: it qualifies
    exactly when its last date is at most 92 days after its first. *)
Lemma six_dates_boundary (t : list Z) :
  length t = 6%nat -> ascending t -> no_overflow t ->
  group_qualifies 6 92 t = Some true <-> nth 5 t 0 - nth 0 t 0 <= 92 * day_ns.
Proof.
  intros Hlen Hasc Hov.
  destruct (group_qualifies_spec 6 92 t) as [b [Hb Hiff]]; try lia; try assumption.
  change (Z.of_nat 6) with 6 in Hb. rewrite Hb.
  assert (Hfit : fits_window 6 (92 * day_ns) t
                 <-> nth 5 t 0 - nth 0 t 0 <= 92 * day_ns).
  { unfold fits_window. split.
    - intros [i [j [H1 [H2 H3]]]].
      assert (i = 0%nat) by lia. assert (j = 5%nat) by lia. subst. exact H3.
    - intro H. exists 0%nat, 5%nat. repeat split; (lia || exact H). }
  rewrite <- Hfit, <- Hiff.
  split; [intro H; inversion H; reflexivity | intros ->; reflexivity].
Qed.

(** Six occurrences that span exactly 92 days qualify; the same six with
    the last one a day later, spanning 93 days, do not. *)
Lemma boundary_92_93_days :
  build_master_rotations iso_to_datetime insertion_order
    (six_rows "2024-04-02") = Some ["ICU"]
  /\ build_master_rotations iso_to_datetime insertion_order
       (six_rows "2024-04-03") = Some [].
Proof. split; vm_compute; reflexivity. Qed.

(** C1, the failing input: five occurrences on 1900-01-01 and one on
    2200-01-01.  No six of the dates lie within 92 days, but the [int64]
    difference of the last and the first date wraps to a negative number,
    the left index never advances, and the group qualifies. *)
Theorem C1_far_apart_dates_qualify :
  let t := group_dates (_prepare_rotations_df iso_to_datetime far_apart_frame)
                       ("Avery", "ICU") in
  t = [ -2208988800000000000; -2208988800000000000; -2208988800000000000;
        -2208988800000000000; -2208988800000000000; 7258118400000000000 ]
  /\ wrap64 (7258118400000000000 - -2208988800000000000)
     = -8979636873709551616
  /\ ~ fits_window 6 (92 * day_ns) t
  /\ group_qualifies 6 92 t = Some true
  /\ build_master_rotations iso_to_datetime insertion_order far_apart_frame
     = Some ["ICU"].
Proof.
  assert (Ht : group_dates
                 (_prepare_rotations_df iso_to_datetime far_apart_frame)
                 ("Avery", "ICU")
               = [ -2208988800000000000; -2208988800000000000;
                   -2208988800000000000; -2208988800000000000;
                   -2208988800000000000; 7258118400000000000 ])
    by (vm_compute; reflexivity).
  cbv zeta. rewrite Ht.
  split; [reflexivity|]. split; [vm_compute; reflexivity|].
  split; [|split; vm_compute; reflexivity].
  intros [i [j [H1 [H2 H3]]]]. simpl in H2.
  assert (i = 0%nat) by lia. assert (j = 5%nat) by lia. subst.
  vm_compute in H3. apply H3. reflexivity.
Qed.

(** Outside the overflow of C1: the detector returns a set without
    repetition, and a rotation name is in it exactly when, for at least
    one person, the scan accepts the ascending occurrence dates of that
    person's group for the rotation; when no difference of two dates of
    the frame overflows, that is exactly when six of those dates lie
    within 92 days. *)
Lemma rotations_with_repeat_use_any_person (df : list row) :
  exists q,
    _rotations_with_repeat_use df 6 92 = Some q
    /\ NoDup q
    /\ (forall rot, In rot q <->
          exists person,
            group_qualifies 6 92 (group_dates df (person, rot)) = Some true)
    /\ (no_overflow (map Date_dt df) ->
        forall rot, In rot q <->
          exists person,
            fits_window 6 (92 * day_ns) (group_dates df (person, rot))).
Proof.
  destruct (rotations_with_repeat_use_spec df 6 92) as [q [H1 [H2 H3]]];
    [lia|].
  exists q. split; [exact H1|]. split; [exact H2|]. split; [exact H3|].
  intros Hov rot. rewrite H3.
  split; intros [person H]; exists person;
    apply (group_qualifies_fits df (person, rot) Hov); exact H.
Qed.

Lemma group_dates_other_person (df : list row) (p person rot : string) :
  forallb (fun r => String.eqb (Name r) p) df = true ->
  person <> p ->
  group_dates df (person, rot) = [].
Proof.
  intros Hall Hne. unfold group_dates.
  replace (filter (same_key (person, rot)) df) with (@nil row);
    [reflexivity|].
  induction df as [|r df IH]; [reflexivity|].
  simpl in Hall. apply andb_prop in Hall. destruct Hall as [Hr Hall].
  apply String.eqb_eq in Hr.
  simpl. unfold same_key at 1. simpl. rewrite Hr.
  apply String.eqb_neq in Hne. rewrite Hne. simpl. exact (IH Hall).
Qed.

Lemma fits_window_length (n : nat) (w : Z) (t : list Z) :
  fits_window n w t -> (n <= length t)%nat.
Proof. intros [i [j [H1 [H2 _]]]]. lia. Qed.

(** C2, the failing input: on the prepared frame of five occurrences of
    ['ICU'] on 1900-01-01 and one on 2200-01-01, all of one person, the
    detector returns the set [{'ICU'}], although no person has six
    occurrences of ['ICU'] within 92 days: membership in the returned set
    is not the claimed condition. *)
Theorem C2_rotation_in_the_set_without_a_dense_person :
  let df := _prepare_rotations_df iso_to_datetime far_apart_frame in
  _rotations_with_repeat_use df 6 92 = Some ["ICU"]
  /\ (forall person,
        ~ fits_window 6 (92 * day_ns) (group_dates df (person, "ICU")))
  /\ ~ (forall q rot,
          _rotations_with_repeat_use df 6 92 = Some q ->
          (In rot q <->
           exists person,
             fits_window 6 (92 * day_ns) (group_dates df (person, rot)))).
Proof.
  cbv zeta.
  assert (Hq : _rotations_with_repeat_use
                 (_prepare_rotations_df iso_to_datetime far_apart_frame) 6 92
               = Some ["ICU"]) by (vm_compute; reflexivity).
  assert (Hnone : forall person,
             ~ fits_window 6 (92 * day_ns)
                 (group_dates
                    (_prepare_rotations_df iso_to_datetime far_apart_frame)
                    (person, "ICU"))).
  { intros person Hfit.
    destruct (string_dec person "Avery") as [->|Hne].
    - assert (Ht : group_dates
                     (_prepare_rotations_df iso_to_datetime far_apart_frame)
                     ("Avery", "ICU")
                   = [ -2208988800000000000; -2208988800000000000;
                       -2208988800000000000; -2208988800000000000;
                       -2208988800000000000; 7258118400000000000 ])
        by (vm_compute; reflexivity).
      rewrite Ht in Hfit. destruct Hfit as [i [j [H1 [H2 H3]]]].
      simpl in H2.
      assert (i = 0%nat) by lia. assert (j = 5%nat) by lia. subst.
      vm_compute in H3. apply H3. reflexivity.
    - apply fits_window_length in Hfit.
      rewrite (group_dates_other_person _ "Avery" person "ICU") in Hfit;
        [simpl in Hfit; lia | vm_compute; reflexivity | exact Hne]. }
  split; [exact Hq|]. split; [exact Hnone|].
  intro H. destruct (proj1 (H ["ICU"] "ICU" Hq)) as [person Hp].
  - left. reflexivity.
  - exact (Hnone person Hp).
Qed.

(** Person A's six occurrences within 92 days qualify the rotation although
    person B holds it only twice, and the rotation is listed once. *)
Lemma cards_consult_listed_once :
  group_qualifies 6 92
    (group_dates (_prepare_rotations_df iso_to_datetime cards_frame)
                 ("A", "Cards Consult")) = Some true
  /\ group_qualifies 6 92
       (group_dates (_prepare_rotations_df iso_to_datetime cards_frame)
                    ("B", "Cards Consult")) = Some false
  /\ build_master_rotations iso_to_datetime insertion_order cards_frame
     = Some ["Cards Consult"].
Proof. repeat split; vm_compute; reflexivity. Qed.

(** ** The calendar *)

Lemma days_before_next_year (y : Z) :
  days_before_year (y + 1)
  = days_before_year y + 365 + (if is_leap y then 1 else 0).
Proof.
  unfold days_before_year, is_leap. cbv zeta.
  replace (y + 1 - 1) with y by lia.
  destruct (Z.eqb_spec (y mod 4) 0), (Z.eqb_spec (y mod 100) 0),
    (Z.eqb_spec (y mod 400) 0); simpl;
    Z.div_mod_to_equations; lia.
Qed.

Lemma days_before_next_month (y m : Z) :
  1 <= m <= 11 ->
  days_before_month y (m + 1) = days_before_month y m + days_in_month y m.
Proof.
  intro Hm.
  assert (Hc : m = 1 \/ m = 2 \/ m = 3 \/ m = 4 \/ m = 5 \/ m = 6 \/ m = 7
               \/ m = 8 \/ m = 9 \/ m = 10 \/ m = 11) by lia.
  unfold days_before_month, days_in_month.
  repeat (destruct Hc as [Hc|Hc]); subst m; destruct (is_leap y);
    reflexivity.
Qed.

Lemma days_before_december (y : Z) :
  days_before_month y 12 + days_in_month y 12
  = 365 + (if is_leap y then 1 else 0).
Proof.
  unfold days_before_month, days_in_month. destruct (is_leap y); reflexivity.
Qed.

Lemma days_before_january (y : Z) : days_before_month y 1 = 0.
Proof. reflexivity. Qed.

(** The month ends where its last day ends. *)
Lemma month_end_start (y m : Z) :
  1 <= m <= 12 ->
  month_end y m = month_start y m + days_in_month y m * day_ns.
Proof.
  intro Hm. unfold month_end, month_start, timestamp_ns, ymd2ord, day_ns.
  destruct (Z.eqb_spec m 12) as [->|Hne].
  - pose proof (days_before_december y) as H1.
    rewrite days_before_next_year, days_before_january. lia.
  - rewrite days_before_next_month by lia. lia.
Qed.

Lemma timestamp_of_day (y m d : Z) :
  timestamp_ns y m d = month_start y m + (d - 1) * day_ns.
Proof. unfold month_start, timestamp_ns, ymd2ord, day_ns. lia. Qed.

(** Every instant of every day of the month is in the interval. *)
Lemma day_in_month (y m d s : Z) :
  1 <= m <= 12 -> 1 <= d <= days_in_month y m -> 0 <= s < day_ns ->
  month_start y m <= timestamp_ns y m d + s < month_end y m.
Proof.
  intros Hm Hd Hs. rewrite (month_end_start y m Hm), timestamp_of_day.
  unfold day_ns in *. lia.
Qed.

(** ** The coverage checker *)

Lemma filled_in (df_rot : list row) (y m : Z) (r : string) :
  In r (filled df_rot y m) <->
  exists p, In p df_rot /\ Rotation p = r
            /\ month_start y m <= Date_dt p < month_end y m.
Proof.
  unfold filled, in_month.
  destruct (set_of_list_spec
              (map Rotation
                 (filter (fun r0 => (month_start y m <=? Date_dt r0)
                                    && (Date_dt r0 <? month_end y m)) df_rot)))
    as [_ H].
  rewrite H, in_map_iff. split.
  - intros [p [E Hp]]. apply filter_In in Hp. destruct Hp as [Hp Hb].
    apply andb_true_iff in Hb. destruct Hb as [H1 H2].
    apply Z.leb_le in H1. apply Z.ltb_lt in H2. exists p. tauto.
  - intros [p [Hp [E [H1 H2]]]]. exists p. split; [exact E|].
    apply filter_In. split; [exact Hp|].
    apply andb_true_iff. split; [apply Z.leb_le | apply Z.ltb_lt]; assumption.
Qed.

Lemma remove_star_no_star (s : string) : has_char "*" (remove_star s) = false.
Proof.
  induction s as [|c s IH]; cbn [remove_star]; [reflexivity|].
  destruct (Ascii.eqb_spec c "*"%char) as [->|Hne]; [exact IH|].
  cbn [has_char]. rewrite IH, orb_false_r. apply Ascii.eqb_neq. congruence.
Qed.

Lemma remove_star_fixed (s : string) :
  has_char "*" s = false -> remove_star s = s.
Proof.
  induction s as [|c s IH]; cbn [remove_star has_char]; [reflexivity|].
  intro H. apply orb_false_elim in H. destruct H as [H1 H2].
  rewrite Ascii.eqb_sym, H1. f_equal. apply IH, H2.
Qed.

Section Coverage.
Variable to_datetime : list cell -> list (option Z).
Variable set_iter : list string -> list string.

(** Iterating over a set enumerates its elements, each once. *)
Hypothesis set_iter_perm :
  forall s, NoDup s -> Permutation (set_iter s) s.

Local Abbreviation prepare := (_prepare_rotations_df to_datetime).
Local Abbreviation before_strip := (unfilled_sorted to_datetime set_iter).
Local Abbreviation unfilled :=
  (rotations_unfilled_in_month to_datetime set_iter).

Lemma unfilled_sorted_in (df : list raw_row) (master : list string)
    (y m : Z) (r : string) :
  In r (before_strip df master y m) <->
  In r master /\ ~ In r (filled (prepare df) y m).
Proof.
  unfold unfilled_sorted, sorted_by_lower.
  rewrite stable_sort_in.
  set (u := filter _ master).
  destruct (set_of_list_spec u) as [Hnd Hin].
  assert (Hp := set_iter_perm _ Hnd).
  split.
  - intro H. apply (Permutation_in _ Hp) in H. apply Hin in H.
    apply filter_In in H. destruct H as [H1 H2]. split; [exact H1|].
    apply negb_true_iff in H2. intro H3. apply mem_in in H3. congruence.
  - intros [H1 H2]. apply (Permutation_in _ (Permutation_sym Hp)).
    apply Hin. apply filter_In. split; [exact H1|].
    apply negb_true_iff. destruct (mem r (filled (prepare df) y m)) eqn:E;
      [|reflexivity].
    apply mem_in in E. contradiction.
Qed.

Lemma unfilled_sorted_nodup (df : list raw_row) (master : list string)
    (y m : Z) :
  NoDup (before_strip df master y m).
Proof.
  unfold unfilled_sorted, sorted_by_lower.
  apply stable_sort_nodup.
  set (u := filter _ master).
  destruct (set_of_list_spec u) as [Hnd _].
  eapply Permutation_NoDup;
    [apply Permutation_sym, set_iter_perm, Hnd | exact Hnd].
Qed.

Lemma unfilled_sorted_sorted (df : list raw_row) (master : list string)
    (y m : Z) :
  StronglySorted (fun a b => lower_leb a b = true)
                 (before_strip df master y m).
Proof.
  apply (stable_sort_sorted lower_leb lower_leb_total lower_leb_trans).
Qed.

Lemma unfilled_in (df : list raw_row) (master : list string) (y m : Z)
    (x : string) :
  In x (unfilled df master y m) <->
  exists r, In r master /\ ~ In r (filled (prepare df) y m)
            /\ x = remove_star r.
Proof.
  unfold rotations_unfilled_in_month. rewrite in_map_iff. split.
  - intros [r [E H]]. apply unfilled_sorted_in in H. exists r.
    split; [tauto|]. split; [tauto | congruence].
  - intros [r [H1 [H2 E]]]. exists r. split; [congruence|].
    apply unfilled_sorted_in. tauto.
Qed.

(** C3, as amended: the filled set holds exactly the rotation names of the
    prepared rows dated in the half-open interval from the first instant
    of the month to the first instant of the next month; every instant of
    every day of the month, the first and the last included, is in the
    interval, no instant from the first day of the next month on is; and
    the returned names are exactly the master entries that are not in
    the filled set, with their stars removed. *)
Theorem C3_filled_is_the_half_open_month
    (df : list raw_row) (master : list string) (y m : Z) :
  valid_month y m ->
  (forall r, In r (filled (prepare df) y m) <->
     exists p, In p (prepare df) /\ Rotation p = r
               /\ month_start y m <= Date_dt p < month_end y m)
  /\ month_start y m = timestamp_ns y m 1
  /\ month_end y m
     = timestamp_ns (if m =? 12 then y + 1 else y)
                    (if m =? 12 then 1 else m + 1) 1
  /\ (forall d s, 1 <= d <= days_in_month y m -> 0 <= s < day_ns ->
        month_start y m <= timestamp_ns y m d + s < month_end y m)
  /\ (forall s, 0 <= s ->
        ~ (month_start y m <= month_end y m + s < month_end y m))
  /\ (forall x, In x (unfilled df master y m) <->
        exists r, In r master /\ ~ In r (filled (prepare df) y m)
                  /\ x = remove_star r).
Proof.
  intros [Hm _].
  split; [intro r; apply filled_in|].
  split; [reflexivity|].
  split; [unfold month_end; destruct (m =? 12); reflexivity|].
  split; [intros d s Hd Hs; apply day_in_month; assumption|].
  split; [intros s Hs H; lia|].
  intro x. apply unfilled_in.
Qed.

(** C4, as amended: a master entry is treated as filled exactly when a
    prepared row dated within the month carries the very same name,
    letter case included; otherwise it is kept, and it is returned with
    its stars removed. *)
Theorem C4_filled_by_the_same_name_only
    (df : list raw_row) (master : list string) (y m : Z) (r : string) :
  In r master ->
  ((exists p, In p (prepare df) /\ Rotation p = r
              /\ month_start y m <= Date_dt p < month_end y m) ->
   ~ In r (before_strip df master y m))
  /\ ((forall p, In p (prepare df) ->
                 month_start y m <= Date_dt p < month_end y m ->
                 Rotation p <> r) ->
      In r (before_strip df master y m)
      /\ In (remove_star r) (unfilled df master y m)).
Proof.
  intro Hr. split.
  - intros Hex H. apply unfilled_sorted_in in H. destruct H as [_ H].
    apply H. apply filled_in. exact Hex.
  - intro Hnone.
    assert (Hnf : ~ In r (filled (prepare df) y m)).
    { intro H. apply filled_in in H. destruct H as [p [Hp [E Hd]]].
      exact (Hnone p Hp Hd E). }
    split; [apply unfilled_sorted_in; tauto|].
    apply unfilled_in. exists r. tauto.
Qed.

(** C5, as amended: the returned sequence is, entry by entry, the
    star-free image of a sequence that has no duplicates and is sorted by
    the lower-case key; no returned entry contains a star; and when no
    master entry contains a star the returned sequence itself has no
    duplicates and is sorted by the lower-case key. *)
Theorem C5_unique_and_sorted_before_the_stars_go
    (df : list raw_row) (master : list string) (y m : Z) :
  valid_month y m ->
  unfilled df master y m = map remove_star (before_strip df master y m)
  /\ NoDup (before_strip df master y m)
  /\ StronglySorted (fun a b => lower_leb a b = true)
                    (before_strip df master y m)
  /\ (forall x, In x (unfilled df master y m) -> has_char "*" x = false)
  /\ ((forall r, In r master -> has_char "*" r = false) ->
      NoDup (unfilled df master y m)
      /\ StronglySorted (fun a b => lower_leb a b = true)
                        (unfilled df master y m)).
Proof.
  intros _.
  split; [reflexivity|].
  split; [apply unfilled_sorted_nodup|].
  split; [apply unfilled_sorted_sorted|].
  split.
  - intros x Hx. unfold rotations_unfilled_in_month in Hx.
    apply in_map_iff in Hx. destruct Hx as [r [<- _]].
    apply remove_star_no_star.
  - intro Hstar.
    assert (E : unfilled df master y m = before_strip df master y m).
    { unfold rotations_unfilled_in_month.
      rewrite <- (map_id (before_strip df master y m)) at 2.
      apply map_ext_in. intros r Hr. apply remove_star_fixed, Hstar.
      apply unfilled_sorted_in in Hr. tauto. }
    rewrite E.
    split; [apply unfilled_sorted_nodup | apply unfilled_sorted_sorted].
Qed.
End Coverage.

Lemma insertion_order_perm (s : list string) :
  NoDup s -> Permutation (insertion_order s) s.
Proof. intros _. apply Permutation_refl. Qed.

Lemma reverse_order_perm (s : list string) :
  NoDup s -> Permutation (reverse_order s) s.
Proof. intros _. apply Permutation_sym, Permutation_rev. Qed.

(** C3, the failing instance: the starred master entry is returned without
    its star, as a name that is no master entry. *)
Lemma C3_starred_entry_counterexample :
  rotations_unfilled_in_month iso_to_datetime insertion_order
    cardiology_frame ["Cardiology"; "Nephrology*"] 2026 2 = ["Nephrology"]
  /\ ~ In "Nephrology" ["Cardiology"; "Nephrology*"].
Proof.
  split; [vm_compute; reflexivity|].
  simpl. intros [H|[H|[]]]; discriminate.
Qed.

Lemma C3_half_open_month_witness :
  (forall d s, 1 <= d <= days_in_month 2026 2 -> 0 <= s < day_ns ->
     month_start 2026 2 <= timestamp_ns 2026 2 d + s < month_end 2026 2)
  /\ filled (_prepare_rotations_df iso_to_datetime month_edges_frame) 2026 2
     = ["First"; "Last"].
Proof.
  split; [|vm_compute; reflexivity].
  assert (Hm : valid_month 2026 2)
    by (unfold valid_month; vm_compute; intuition discriminate).
  destruct (C3_filled_is_the_half_open_month iso_to_datetime insertion_order
              insertion_order_perm month_edges_frame
              ["First"; "Last"; "Next"] 2026 2 Hm)
    as [_ [_ [_ [H _]]]].
  exact H.
Defined.

(** C4, the failing instance: the month holds [CARDS] only, which equals
    the master entry [Cards] up to letter case, and [Cards] is returned as
    unfilled. *)
Lemma C4_letter_case_counterexample :
  map Rotation
      (in_month (_prepare_rotations_df iso_to_datetime cards_upper_frame)
                2026 2) = ["CARDS"]
  /\ lower "CARDS" = lower "Cards"
  /\ rotations_unfilled_in_month iso_to_datetime insertion_order
       cards_upper_frame ["Cards"] 2026 2 = ["Cards"].
Proof. repeat split; vm_compute; reflexivity. Qed.

Lemma C4_same_name_witness :
  ~ In "Cardiology"
       (unfilled_sorted iso_to_datetime insertion_order cardiology_frame
          ["Cardiology"; "Nephrology*"] 2026 2).
Proof.
  assert (Hin : In "Cardiology" ["Cardiology"; "Nephrology*"])
    by (left; reflexivity).
  destruct (C4_filled_by_the_same_name_only iso_to_datetime insertion_order
              insertion_order_perm cardiology_frame
              ["Cardiology"; "Nephrology*"] 2026 2 "Cardiology" Hin)
    as [H _].
  apply H.
  exists (mk_row "Avery" "Cardiology" 1770681600000000000).
  split; [vm_compute; left; reflexivity|].
  split; [reflexivity|]. vm_compute. split; [discriminate | reflexivity].
Defined.

(** C5, the failing instance: [Card*] and [Card] are two names when the
    duplicates are removed and one name when the stars are; the result
    holds [Card] twice.  In the same way [a*b] sorts before [aa] and is
    returned as [ab] in front of [aa]. *)
Lemma C5_duplicates_after_strip_counterexample :
  rotations_unfilled_in_month iso_to_datetime insertion_order []
    ["Card*"; "Card"] 2026 2 = ["Card"; "Card"]
  /\ ~ NoDup (rotations_unfilled_in_month iso_to_datetime insertion_order []
                ["Card*"; "Card"] 2026 2)
  /\ rotations_unfilled_in_month iso_to_datetime insertion_order []
       ["a*b"; "aa"] 2026 2 = ["ab"; "aa"]
  /\ lower_leb "ab" "aa" = false.
Proof.
  split; [vm_compute; reflexivity|].
  split; [|split; vm_compute; reflexivity].
  assert (E : rotations_unfilled_in_month iso_to_datetime insertion_order []
                ["Card*"; "Card"] 2026 2 = ["Card"; "Card"])
    by (vm_compute; reflexivity).
  rewrite E. intro H. inversion H as [|x l Hn _]; subst.
  apply Hn. left. reflexivity.
Qed.

Lemma C5_unique_and_sorted_witness :
  NoDup (rotations_unfilled_in_month iso_to_datetime insertion_order
           cardiology_frame ["nephrology"; "Cardiology"; "ICU"; "ICU"] 2026 2)
  /\ rotations_unfilled_in_month iso_to_datetime insertion_order
       cardiology_frame ["nephrology"; "Cardiology"; "ICU"; "ICU"] 2026 2
     = ["ICU"; "nephrology"].
Proof.
  split; [|vm_compute; reflexivity].
  assert (Hm : valid_month 2026 2)
    by (unfold valid_month; vm_compute; intuition discriminate).
  destruct (C5_unique_and_sorted_before_the_stars_go iso_to_datetime
              insertion_order insertion_order_perm cardiology_frame
              ["nephrology"; "Cardiology"; "ICU"; "ICU"] 2026 2 Hm)
    as [_ [_ [_ [_ H]]]].
  apply H.
  intros r [<-|[<-|[<-|[<-|[]]]]]; reflexivity.
Defined.

(** ** The master list *)

Lemma lower_tie_leb (x0 x y : string) :
  String.eqb (lower x) (lower x0) = true ->
  String.eqb (lower y) (lower x0) = true ->
  lower_leb x y = true.
Proof.
  rewrite !String.eqb_eq. intros Hx Hy. unfold lower_leb.
  rewrite Hx, Hy. apply string_leb_refl.
Qed.

(** C6, the failing instance: a set that holds [apple] and [Apple] and
    iterates over [apple] first is returned as [apple, Apple]; the sort
    key ties the two names and the sort keeps them as they come. *)
Lemma C6_tie_order_counterexample :
  sorted_by_lower (insertion_order ["apple"; "Apple"]) = ["apple"; "Apple"]
  /\ sorted_by_lower (insertion_order ["apple"; "Apple"])
     <> ["Apple"; "apple"]
  /\ build_master_rotations iso_to_datetime insertion_order apple_frame
     = Some ["apple"; "Apple"].
Proof.
  split; [reflexivity|]. split; [|vm_compute; reflexivity].
  vm_compute. discriminate.
Qed.

(** C6, as amended: for every qualifying set, in whatever order the set
    iterates, the master list has no duplicates, holds exactly the elements
    of the set, and is sorted by the lower-case key; names that are equal
    up to letter case are not ordered by their spelling but keep the order
    in which the set iterates over them. *)
Theorem C6_master_list_sorted_by_lower_key
    (set_iter : list string -> list string) (q : list string) :
  NoDup q -> Permutation (set_iter q) q ->
  NoDup (sorted_by_lower (set_iter q))
  /\ (forall x, In x (sorted_by_lower (set_iter q)) <-> In x q)
  /\ StronglySorted (fun a b => lower_leb a b = true)
                    (sorted_by_lower (set_iter q))
  /\ (forall x,
        filter (fun y => String.eqb (lower y) (lower x))
               (sorted_by_lower (set_iter q))
        = filter (fun y => String.eqb (lower y) (lower x)) (set_iter q)).
Proof.
  intros Hnd Hp. unfold sorted_by_lower.
  split.
  { apply stable_sort_nodup.
    eapply Permutation_NoDup; [apply Permutation_sym, Hp | exact Hnd]. }
  split.
  { intro x. rewrite stable_sort_in. split; apply Permutation_in;
      [exact Hp | apply Permutation_sym, Hp]. }
  split.
  { apply (stable_sort_sorted lower_leb lower_leb_total lower_leb_trans). }
  intro x. apply stable_sort_filter. intros a b. apply lower_tie_leb.
Qed.

Lemma C6_master_list_witness :
  StronglySorted (fun a b => lower_leb a b = true)
    (sorted_by_lower (insertion_order ["zebra Clinic"; "Apple Service"]))
  /\ sorted_by_lower (insertion_order ["zebra Clinic"; "Apple Service"])
     = ["Apple Service"; "zebra Clinic"].
Proof.
  split; [|reflexivity].
  assert (Hnd : NoDup ["zebra Clinic"; "Apple Service"]).
  { constructor; [simpl; intros [H|[]]; discriminate|].
    constructor; [simpl; tauto | constructor]. }
  destruct (C6_master_list_sorted_by_lower_key insertion_order
              ["zebra Clinic"; "Apple Service"] Hnd
              (insertion_order_perm _ Hnd))
    as [_ [_ [H _]]].
  exact H.
Defined.

(** ** Order independence *)

Section OrderIndependence.
Context {fmt : Type}.
Variable guess_format : string -> option fmt.
Variable parse_with : option fmt -> string -> parsed.
Variable set_iter : list string -> list string.

Local Abbreviation to_datetime := (column_parser guess_format parse_with).

Lemma mem_filled_perm (df_rot df_rot' : list row) (y m : Z) (r : string) :
  Permutation df_rot df_rot' ->
  mem r (filled df_rot y m) = mem r (filled df_rot' y m).
Proof.
  intro Hp.
  assert (H : forall a b, Permutation a b ->
              mem r (filled a y m) = true -> mem r (filled b y m) = true).
  { intros a b Hab Ha. apply mem_in. apply mem_in in Ha.
    apply filled_in in Ha. apply filled_in.
    destruct Ha as [p [Hin Hrest]]. exists p.
    split; [eapply Permutation_in; eassumption | exact Hrest]. }
  destruct (mem r (filled df_rot y m)) eqn:E1,
           (mem r (filled df_rot' y m)) eqn:E2; try reflexivity.
  - rewrite (H _ _ Hp E1) in E2. discriminate.
  - rewrite (H _ _ (Permutation_sym Hp) E2) in E1. discriminate.
Qed.

(** C9, as amended: a frame and a permutation of its rows for which the
    parser takes the same format from the date column (the format of the
    first dated cell; it is the same whenever every dated cell leads to
    one format) both yield a master list, the same one, and, for every
    master list and valid month, the same unfilled list. *)
Theorem C9_order_independence (df df' : list raw_row) :
  Permutation df df' ->
  inferred_format guess_format (map raw_Date df)
  = inferred_format guess_format (map raw_Date df') ->
  (exists master,
      build_master_rotations to_datetime set_iter df = Some master
      /\ build_master_rotations to_datetime set_iter df' = Some master)
  /\ forall master y m,
      valid_month y m ->
      rotations_unfilled_in_month to_datetime set_iter df master y m
      = rotations_unfilled_in_month to_datetime set_iter df' master y m.
Proof.
  intros Hp Hf.
  pose proof (prepare_column_perm guess_format parse_with df df' Hp Hf)
    as Hpp.
  split.
  - unfold build_master_rotations, _rotations_with_repeat_use.
    rewrite <- (sort_values_perm_eq _ _ Hpp).
    destruct (rotations_with_repeat_use_spec
                (_prepare_rotations_df to_datetime df) 6 92)
      as [q [Hq _]]; [lia|].
    unfold _rotations_with_repeat_use in Hq. rewrite Hq.
    exists (sorted_by_lower (set_iter q)). split; reflexivity.
  - intros master y m _.
    unfold rotations_unfilled_in_month, unfilled_sorted.
    do 4 f_equal. apply filter_ext. intro r.
    rewrite (mem_filled_perm _ _ y m r Hpp). reflexivity.
Qed.
End OrderIndependence.

Lemma C9_order_independence_witness :
  (exists master,
      build_master_rotations inferring_to_datetime reverse_order cards_frame
      = Some master
      /\ build_master_rotations inferring_to_datetime reverse_order
           (rev cards_frame) = Some master)
  /\ rotations_unfilled_in_month inferring_to_datetime reverse_order
       cards_frame ["Cards Consult"; "ICU"] 2024 6
     = rotations_unfilled_in_month inferring_to_datetime reverse_order
         (rev cards_frame) ["Cards Consult"; "ICU"] 2024 6.
Proof.
  destruct (C9_order_independence guess_iso_us parse_iso_us reverse_order
              cards_frame (rev cards_frame) (Permutation_rev cards_frame)
              eq_refl)
    as [H1 H2].
  split; [exact H1 | apply H2].
  unfold valid_month; vm_compute; intuition discriminate.
Defined.

(** C9, the counterexample: a row dated [12/25/2023] and six rows of the
    same person and rotation dated in the form [2024-01-01], within 92
    days.  With the first row first the parser takes the format
    [MM/DD/YYYY] for the column, the six rows get [NaT] and are dropped:
    the master list is empty and the rotation counts as filled in
    December 2023.  With the same rows in reverse order the format is
    [YYYY-MM-DD]: the rotation is on the master list and is unfilled in
    December 2023. *)
Lemma C9_mixed_formats_counterexample :
  Permutation mixed_frame (rev mixed_frame)
  /\ build_master_rotations inferring_to_datetime insertion_order mixed_frame
     = Some []
  /\ build_master_rotations inferring_to_datetime insertion_order
       (rev mixed_frame) = Some ["ICU"]
  /\ valid_month 2023 12
  /\ rotations_unfilled_in_month inferring_to_datetime insertion_order
       mixed_frame ["ICU"] 2023 12 = []
  /\ rotations_unfilled_in_month inferring_to_datetime insertion_order
       (rev mixed_frame) ["ICU"] 2023 12 = ["ICU"].
Proof.
  split; [apply Permutation_rev|].
  split; [vm_compute; reflexivity|].
  split; [vm_compute; reflexivity|].
  split; [unfold valid_month; vm_compute; intuition discriminate|].
  split; vm_compute; reflexivity.
Qed.

(* ================================================================= *)
(** * Further properties of the detector *)

Lemma scan_short (m w : Z) (t : list Z) (cnt j i : nat) :
  0 <= w -> (j + cnt = length t)%nat -> (i <= j)%nat ->
  Z.of_nat (length t) < m ->
  scan m w t (seq j cnt) i = Some false.
Proof.
  intros Hw. revert j i. induction cnt as [|cnt IH]; intros j i Hlen Hij Hm.
  - reflexivity.
  - assert (Hj : (j < length t)%nat) by lia.
    simpl. rewrite (nth_error_nth' t 0 Hj).
    destruct (advance_total w (nth j t 0) t j (skipn i t) i Hw Hj eq_refl
                Hij eq_refl) as [i' [Ha Hb]].
    rewrite Ha.
    destruct (Z.geb_spec (Z.of_nat j - Z.of_nat i' + 1) m) as [Hge|Hlt];
      [lia|].
    apply IH; lia.
Qed.

Lemma group_dates_length (df : list row) (k : string * string) :
  length (group_dates df k) = length (filter (same_key k) df).
Proof.
  unfold group_dates.
  rewrite (Permutation_length (stable_sort_perm Z.leb _)).
  apply length_map.
Qed.

Lemma group_dates_rows (df : list row) (k : string * string) (x : Z) :
  In x (group_dates df k) <->
  exists r, In r (filter (same_key k) df) /\ Date_dt r = x.
Proof.
  unfold group_dates. rewrite stable_sort_in, in_map_iff.
  split; intros [r [H1 H2]]; exists r; tauto.
Qed.

(** X1: a rotation enters the qualifying set only through a person who
    holds it at least [min_count] times in the prepared frame, whatever the
    dates are. *)
Theorem X1_qualifying_needs_min_count_rows
    (df : list row) (min_count window_days : Z) (q : list string)
    (rot : string) :
  0 <= window_days ->
  _rotations_with_repeat_use df min_count window_days = Some q ->
  In rot q ->
  exists person,
    min_count <= Z.of_nat (length (filter (same_key (person, rot)) df)).
Proof.
  intros Hw Hq Hin.
  destruct (rotations_with_repeat_use_spec df min_count window_days Hw)
    as [q' [Hq' [_ Hspec]]].
  rewrite Hq in Hq'. inversion Hq'; subst q'.
  apply Hspec in Hin. destruct Hin as [person Hg]. exists person.
  rewrite <- group_dates_length.
  destruct (Z.le_gt_cases min_count
              (Z.of_nat (length (group_dates df (person, rot)))))
    as [Hle|Hgt]; [exact Hle|].
  unfold group_qualifies in Hg.
  rewrite scan_short in Hg; [discriminate | lia | reflexivity | lia | lia].
Qed.

Lemma X1_qualifying_needs_min_count_rows_witness :
  exists person,
    6 <= Z.of_nat
           (length (filter (same_key (person, "Cards Consult"))
                           (_prepare_rotations_df iso_to_datetime
                                                  cards_frame))).
Proof.
  apply (X1_qualifying_needs_min_count_rows
           (_prepare_rotations_df iso_to_datetime cards_frame) 6 92
           ["Cards Consult"] "Cards Consult").
  - lia.
  - vm_compute. reflexivity.
  - left. reflexivity.
Defined.

(** X2: a person's group of at least [n] rows whose dates all lie within
    [window_days] days of one another qualifies its rotation; six rows on
    one day are the extreme case. *)
Theorem X2_dense_group_qualifies
    (df : list row) (person rot : string) (n : nat) (window_days : Z) :
  (1 <= n)%nat -> 0 <= window_days -> window_days * day_ns < 2 ^ 63 ->
  (n <= length (filter (same_key (person, rot)) df))%nat ->
  (forall a b,
      In a (filter (same_key (person, rot)) df) ->
      In b (filter (same_key (person, rot)) df) ->
      Date_dt b - Date_dt a <= window_days * day_ns) ->
  exists q,
    _rotations_with_repeat_use df (Z.of_nat n) window_days = Some q
    /\ In rot q.
Proof.
  intros Hn Hw Hbound Hlen Hclose.
  destruct (rotations_with_repeat_use_spec df (Z.of_nat n) window_days Hw)
    as [q [Hq [_ Hspec]]].
  exists q. split; [exact Hq|]. apply Hspec. exists person.
  set (t := group_dates df (person, rot)).
  assert (Hdiff : forall x y, In x t -> In y t ->
                              y - x <= window_days * day_ns).
  { intros x y Hx Hy. apply group_dates_rows in Hx, Hy.
    destruct Hx as [a [Ha <-]], Hy as [b [Hb <-]]. apply Hclose; assumption. }
  destruct (group_qualifies_spec n window_days t Hn Hw) as [b [Hb Hiff]].
  - apply group_dates_ascending.
  - intros x y Hx Hy. specialize (Hdiff x y Hx Hy). lia.
  - rewrite Hb. f_equal. apply Hiff.
    assert (Ht : (n <= length t)%nat)
      by (unfold t; rewrite group_dates_length; exact Hlen).
    exists 0%nat, (n - 1)%nat.
    split; [lia|]. split; [lia|].
    apply Hdiff; apply nth_In; lia.
Qed.

Lemma X2_dense_group_qualifies_witness :
  exists q,
    _rotations_with_repeat_use
      (map (mk_row "Avery" "ICU") [5; 5; 5; 5; 5; 5]) (Z.of_nat 6) 92 = Some q
    /\ In "ICU" q.
Proof.
  apply (X2_dense_group_qualifies
           (map (mk_row "Avery" "ICU") [5; 5; 5; 5; 5; 5]) "Avery" "ICU" 6 92).
  - lia.
  - lia.
  - vm_compute. reflexivity.
  - vm_compute. lia.
  - intros a b Ha Hb. apply filter_In in Ha, Hb.
    destruct Ha as [Ha _], Hb as [Hb _].
    apply in_map_iff in Ha, Hb.
    destruct Ha as [x [<- Hx]], Hb as [y [<- Hy]]. simpl in *.
    unfold day_ns. lia.
Defined.

(** A window of [n] dates, counted: some window of span [w] that starts at
    a date holds at least [n] of the dates. *)
Lemma filter_length_range {A : Type} (p : A -> bool) (d : A) (t : list A)
    (i j : nat) :
  (i <= j)%nat -> (j < length t)%nat ->
  (forall k, (i <= k <= j)%nat -> p (nth k t d) = true) ->
  (j + 1 - i <= length (filter p t))%nat.
Proof.
  revert i j. induction t as [|x t IH]; intros i j Hij Hj Hp; simpl in Hj;
    [lia|].
  simpl. destruct i as [|i].
  - assert (Hx : p x = true) by (apply (Hp 0%nat); lia).
    rewrite Hx. simpl. destruct j as [|j]; [lia|].
    assert (j + 1 - 0 <= length (filter p t))%nat.
    { apply IH; [lia | lia |]. intros k Hk. apply (Hp (S k)). lia. }
    lia.
  - destruct j as [|j]; [lia|].
    assert (j + 1 - i <= length (filter p t))%nat.
    { apply IH; [lia | lia |]. intros k Hk. apply (Hp (S k)). lia. }
    destruct (p x); simpl; lia.
Qed.

Lemma filter_positions {A : Type} (p : A -> bool) (d : A) (t : list A)
    (m : nat) :
  length (filter p t) = S m ->
  exists i j, (i + m <= j)%nat /\ (j < length t)%nat
              /\ p (nth i t d) = true /\ p (nth j t d) = true.
Proof.
  revert m. induction t as [|x t IH]; intros m Hlen; simpl in Hlen;
    [discriminate|].
  destruct (p x) eqn:Hx.
  - simpl in Hlen. destruct m as [|m].
    + exists 0%nat, 0%nat. simpl. repeat split; (lia || assumption).
    + destruct (IH m) as [i [j [H1 [H2 [H3 H4]]]]]; [lia|].
      exists 0%nat, (S j). simpl. repeat split; (lia || assumption).
  - destruct (IH m Hlen) as [i [j [H1 [H2 [H3 H4]]]]].
    exists (S i), (S j). simpl. repeat split; (lia || assumption).
Qed.

Lemma fits_window_count (n : nat) (w : Z) (t : list Z) :
  (1 <= n)%nat -> ascending t ->
  fits_window n w t <->
  exists a, (n <= length (filter (in_window a w) t))%nat.
Proof.
  intros Hn Hasc. split.
  - intros [i [j [H1 [H2 H3]]]]. exists (nth i t 0).
    assert (j + 1 - i <= length (filter (in_window (nth i t 0%Z) w) t))%nat.
    { apply filter_length_range with (d := 0); [lia | exact H2 |].
      intros k Hk. unfold in_window. apply andb_true_iff.
      assert (nth i t 0 <= nth k t 0) by (apply Hasc; lia).
      assert (nth k t 0 <= nth j t 0) by (apply Hasc; lia).
      split; [apply Z.leb_le | apply Z.leb_le]; lia. }
    lia.
  - intros [a Ha].
    destruct (length (filter (in_window a w) t)) as [|m] eqn:Hlen; [lia|].
    destruct (filter_positions _ 0 t m Hlen) as [i [j [H1 [H2 [H3 H4]]]]].
    exists i, j. split; [lia|]. split; [exact H2|].
    unfold in_window in H3, H4.
    apply andb_true_iff in H3, H4. rewrite !Z.leb_le in H3, H4. lia.
Qed.

Lemma group_dates_app (df extra : list row) (k : string * string) :
  Permutation (group_dates (df ++ extra) k)
              (group_dates df k ++ group_dates extra k).
Proof.
  unfold group_dates.
  eapply perm_trans; [apply (stable_sort_perm Z.leb)|].
  rewrite filter_app, map_app.
  apply Permutation_app; apply Permutation_sym, (stable_sort_perm Z.leb).
Qed.

Lemma fits_window_more_rows (n : nat) (w : Z) (df extra : list row)
    (k : string * string) :
  (1 <= n)%nat ->
  fits_window n w (group_dates df k) ->
  fits_window n w (group_dates (df ++ extra) k).
Proof.
  intros Hn H.
  apply (fits_window_count n w _ Hn (group_dates_ascending df k)) in H.
  apply (fits_window_count n w _ Hn (group_dates_ascending (df ++ extra) k)).
  destruct H as [a Ha]. exists a.
  rewrite (Permutation_length
             (permutation_filter (in_window a w) _ _
                (group_dates_app df extra k))).
  rewrite filter_app, length_app. lia.
Qed.

(** X3: more rows never take a rotation out of the qualifying set: when no
    difference of two dates of the larger frame overflows, every rotation
    that qualifies on a frame qualifies on the frame with further rows. *)
Theorem X3_more_rows_keep_rotations_qualified
    (df extra : list row) (q q' : list string) (rot : string) :
  no_overflow (map Date_dt (df ++ extra)) ->
  _rotations_with_repeat_use df 6 92 = Some q ->
  _rotations_with_repeat_use (df ++ extra) 6 92 = Some q' ->
  In rot q -> In rot q'.
Proof.
  intros Hov Hq Hq' Hin.
  assert (Hov1 : no_overflow (map Date_dt df)).
  { intros x y Hx Hy. apply Hov; rewrite map_app; apply in_or_app; left;
      assumption. }
  destruct (rotations_with_repeat_use_spec df 6 92) as [q1 [E1 [_ S1]]];
    [lia|].
  destruct (rotations_with_repeat_use_spec (df ++ extra) 6 92)
    as [q2 [E2 [_ S2]]]; [lia|].
  rewrite Hq in E1. rewrite Hq' in E2. inversion E1; inversion E2; subst.
  apply S2. apply S1 in Hin. destruct Hin as [person Hg]. exists person.
  apply (group_qualifies_fits (df ++ extra) (person, rot) Hov).
  apply fits_window_more_rows; [lia|].
  apply (group_qualifies_fits df (person, rot) Hov1). exact Hg.
Qed.

Lemma X3_more_rows_witness :
  In "ICU" ["ICU"; "Wards"].
Proof.
  apply (X3_more_rows_keep_rotations_qualified
           (map (mk_row "Avery" "ICU") [1; 2; 3; 4; 5; 6])
           (map (mk_row "Blake" "Wards") [1; 2; 3; 4; 5; 6; 7])
           ["ICU"] ["ICU"; "Wards"] "ICU").
  - intros x y Hx Hy. simpl in Hx, Hy.
    repeat (destruct Hx as [<-|Hx]); try contradiction;
      repeat (destruct Hy as [<-|Hy]); try contradiction; reflexivity.
  - vm_compute. reflexivity.
  - vm_compute. reflexivity.
  - left. reflexivity.
Defined.

(* ================================================================= *)
(** * Further properties of the exclusion matcher *)

Lemma lower_app (a b : string) :
  lower (a ++ b)%string = (lower a ++ lower b)%string.
Proof.
  induction a as [|c a IH]; simpl; [reflexivity|]. rewrite IH. reflexivity.
Qed.

Lemma lower_split (s u v : string) :
  lower s = (u ++ v)%string ->
  exists a b, s = (a ++ b)%string /\ lower a = u /\ lower b = v.
Proof.
  revert s. induction u as [|c u IH]; intros s H.
  - exists EmptyString, s. repeat split. exact H.
  - destruct s as [|d s]; [discriminate|]. simpl in H.
    inversion H as [[Hc Hs]].
    destruct (IH s Hs) as [a [b [E [Ha Hb]]]].
    exists (String d a), b. subst s. repeat split; [|exact Hb].
    simpl. rewrite Ha. reflexivity.
Qed.

Lemma string_app_assoc (a b c : string) :
  ((a ++ b) ++ c)%string = (a ++ b ++ c)%string.
Proof.
  induction a as [|x a IH]; simpl; [reflexivity|]. rewrite IH. reflexivity.
Qed.

Lemma prefix_iff (t s : string) :
  prefix t s = true <-> exists v, s = (t ++ v)%string.
Proof.
  revert s. induction t as [|c t IH]; intros [|d s]; simpl.
  - split; [intros _; exists EmptyString; reflexivity | reflexivity].
  - split; [intros _; exists (String d s); reflexivity | reflexivity].
  - split; [discriminate | intros [v H]; discriminate].
  - destruct (ascii_dec c d) as [->|Hne].
    + rewrite IH. split; intros [v H]; exists v; [rewrite H | inversion H];
        reflexivity.
    + split; [discriminate|]. intros [v H]. congruence.
Qed.

Lemma contains_iff (t s : string) :
  contains t s = true <-> exists u v, s = (u ++ t ++ v)%string.
Proof.
  induction s as [|d s IH].
  - cbn [contains]. rewrite orb_false_r, prefix_iff. split.
    + intros [v H]. exists EmptyString, v. exact H.
    + intros [u [v H]]. destruct u; [exists v; exact H | discriminate].
  - cbn [contains]. rewrite orb_true_iff, prefix_iff, IH. split.
    + intros [[v H]|[u [v H]]].
      * exists EmptyString, v. exact H.
      * exists (String d u), v. simpl. rewrite H. reflexivity.
    + intros [u [v H]]. destruct u as [|c u].
      * left. exists v. exact H.
      * right. exists u, v. simpl in H. inversion H. reflexivity.
Qed.

(** X5: a text is excluded exactly when some banned term occurs somewhere
    inside it, in any mix of letter cases; what stands before and after
    the term does not matter. *)
Theorem X5_excluded_iff_banned_term_inside (s : string) :
  _EXCLUDE_RE s = true <->
  exists t a t' b,
    In t banned_terms /\ s = (a ++ t' ++ b)%string /\ lower t' = lower t.
Proof.
  unfold _EXCLUDE_RE. rewrite existsb_exists. split.
  - intros [t [Ht Hc]]. apply contains_iff in Hc. destruct Hc as [u [v H]].
    destruct (lower_split s u _ H) as [a [rest [Es [Ha Hrest]]]].
    destruct (lower_split rest _ v Hrest) as [t' [b [Er [Ht' Hb]]]].
    exists t, a, t', b. subst. repeat split; assumption.
  - intros [t [a [t' [b [Ht [Es Hl]]]]]]. exists t. split; [exact Ht|].
    apply contains_iff. exists (lower a), (lower b).
    rewrite Es, !lower_app, Hl. reflexivity.
Qed.

(** X6: the banned term ['SOM Resc'] is covered by the term ['Resc']: the
    matcher without it excludes the same texts. *)
Theorem X6_som_resc_is_redundant (s : string) :
  _EXCLUDE_RE s
  = existsb (fun t => contains (lower t) (lower s))
            banned_terms_without_som_resc.
Proof.
  assert (H : _EXCLUDE_RE s = true <->
              existsb (fun t => contains (lower t) (lower s))
                      banned_terms_without_som_resc = true).
  { unfold _EXCLUDE_RE, banned_terms_without_som_resc.
    rewrite !existsb_exists. split.
    - intros [t [Ht Hc]].
      destruct (String.eqb_spec t "SOM Resc") as [->|Hne].
      + exists "Resc". split; [vm_compute; tauto|].
        apply contains_iff in Hc. destruct Hc as [u [v E]].
        apply contains_iff. exists (u ++ "som ")%string, v.
        rewrite E, string_app_assoc. reflexivity.
      + exists t. split; [|exact Hc]. apply filter_In.
        split; [exact Ht|]. apply negb_true_iff, String.eqb_neq, Hne.
    - intros [t [Ht Hc]]. exists t. apply filter_In in Ht. tauto. }
  destruct (_EXCLUDE_RE s),
    (existsb (fun t => contains (lower t) (lower s))
             banned_terms_without_som_resc); try reflexivity.
  - symmetry. apply H. reflexivity.
  - apply H. reflexivity.
Qed.

(* ================================================================= *)
(** * Further properties of the master list *)

Section MasterListFacts.
Variable to_datetime : list cell -> list (option Z).
Variable set_iter : list string -> list string.
Hypothesis set_iter_perm : forall s, NoDup s -> Permutation (set_iter s) s.

Lemma master_list_in (df : list raw_row) (l : list string) (x : string) :
  build_master_rotations to_datetime set_iter df = Some l ->
  In x l <->
  exists person,
    group_qualifies 6 92
      (group_dates (_prepare_rotations_df to_datetime df) (person, x))
    = Some true.
Proof.
  unfold build_master_rotations. intro Hb.
  destruct (rotations_with_repeat_use_spec
              (_prepare_rotations_df to_datetime df) 6 92)
    as [q [Hq [Hnd Hspec]]]; [lia|].
  rewrite Hq in Hb. inversion Hb; subst l. clear Hb.
  unfold sorted_by_lower. rewrite stable_sort_in, <- Hspec.
  split; apply Permutation_in;
    [apply set_iter_perm, Hnd | apply Permutation_sym, set_iter_perm, Hnd].
Qed.

(** X4: the master list never holds an excluded or blank name: each of
    its entries is the normalized assignment of a raw row that passed the
    four checks of the preparer. *)
Theorem X4_master_entries_are_prepared_rotations
    (df : list raw_row) (l : list string) (x : string) :
  build_master_rotations to_datetime set_iter df = Some l ->
  In x l ->
  _EXCLUDE_RE x = false
  /\ strip x <> EmptyString
  /\ exists r d,
       In r df
       /\ In (r, Some d) (_parse_date_column to_datetime df)
       /\ survives r (Some d) = true
       /\ x = _clean_rotation_text (raw_Assignment r).
Proof.
  intros Hb Hin. apply (master_list_in df l x Hb) in Hin.
  destruct Hin as [person Hg].
  destruct (group_dates (_prepare_rotations_df to_datetime df) (person, x))
    as [|d ds] eqn:Hd; [discriminate|].
  assert (Hd' : In d (group_dates (_prepare_rotations_df to_datetime df)
                                  (person, x)))
    by (rewrite Hd; left; reflexivity).
  apply group_dates_rows in Hd'. destruct Hd' as [p [Hp _]].
  apply filter_In in Hp. destruct Hp as [Hp Hk].
  unfold same_key in Hk. simpl in Hk. apply andb_true_iff in Hk.
  destruct Hk as [_ Hrot]. apply String.eqb_eq in Hrot.
  destruct (prepare_in to_datetime df p Hp) as [r [Hr [Hrd [Hs [Hc _]]]]].
  assert (Ex : x = _clean_rotation_text (raw_Assignment r)) by congruence.
  pose proof Hs as Hs'.
  unfold survives in Hs. rewrite <- Ex in Hs.
  repeat (apply andb_prop in Hs; destruct Hs as [Hs ?]).
  split; [apply negb_true_iff; assumption|].
  split; [apply String.eqb_neq, negb_true_iff; assumption|].
  exists r, (Date_dt p). split; [exact Hr|]. split; [exact Hrd|].
  split; [exact Hs'|exact Ex].
Qed.
End MasterListFacts.

Lemma X4_master_entries_witness :
  _EXCLUDE_RE "Cards Consult" = false
  /\ strip "Cards Consult" <> EmptyString
  /\ exists r d,
       In r cards_frame
       /\ In (r, Some d) (_parse_date_column iso_to_datetime cards_frame)
       /\ survives r (Some d) = true
       /\ "Cards Consult" = _clean_rotation_text (raw_Assignment r).
Proof.
  apply (X4_master_entries_are_prepared_rotations iso_to_datetime
           insertion_order insertion_order_perm cards_frame
           ["Cards Consult"] "Cards Consult").
  - vm_compute. reflexivity.
  - left. reflexivity.
Defined.

(* ================================================================= *)
(** * Further properties of the text normalizer *)

Lemma lstrip_length (s : string) :
  (String.length (lstrip s) <= String.length s)%nat.
Proof.
  induction s as [|c s IH]; simpl; [lia|].
  destruct (is_space c); simpl; lia.
Qed.

Lemma rstrip_length (s : string) :
  (String.length (rstrip s) <= String.length s)%nat.
Proof.
  induction s as [|c s IH]; simpl; [lia|].
  destruct (rstrip s); [destruct (is_space c)|]; simpl in *; lia.
Qed.

Lemma collapse_from_length (b : bool) (s : string) :
  (String.length (collapse_from b s) <= String.length s)%nat.
Proof.
  revert b. induction s as [|c s IH]; intro b; simpl; [lia|].
  pose proof (IH true). pose proof (IH false).
  destruct (is_space c); [destruct b|]; simpl; lia.
Qed.

Lemma sub_ampm_suffix_length (s : string) :
  (String.length (sub_ampm_suffix s) <= String.length s)%nat.
Proof.
  induction s as [|c s IH]; simpl; [lia|].
  destruct ((c =? ",")%char && ampm_tail s); simpl; lia.
Qed.

Lemma sub_ampm_suffix_shorter (s : string) :
  has_ampm_suffix s = true ->
  (String.length (sub_ampm_suffix s) < String.length s)%nat.
Proof.
  induction s as [|c s IH]; simpl; [discriminate|].
  destruct ((c =? ",")%char && ampm_tail s); simpl; [lia|].
  intro H. apply IH in H. lia.
Qed.

Lemma clean_length (x : cell) :
  (String.length (_clean_rotation_text x) <= String.length (py_str x))%nat.
Proof.
  unfold _clean_rotation_text, strip, collapse_ws.
  pose proof (sub_ampm_suffix_length
                (collapse_from false (rstrip (lstrip (py_str x))))).
  pose proof (collapse_from_length false (rstrip (lstrip (py_str x)))).
  pose proof (rstrip_length (lstrip (py_str x))).
  pose proof (lstrip_length (py_str x)).
  lia.
Qed.

(** X7: the normalized text never starts with whitespace, collapsing its
    whitespace once more changes nothing (its only whitespace is single
    spaces), and it is never longer than the text it comes from. *)
Theorem X7_clean_rotation_text_is_spaced (x : cell) :
  lstrip (_clean_rotation_text x) = _clean_rotation_text x
  /\ collapse_ws (_clean_rotation_text x) = _clean_rotation_text x
  /\ (String.length (_clean_rotation_text x) <= String.length (py_str x))%nat.
Proof.
  pose proof (clean_spaced x) as H.
  split; [apply spaced_from_lstrip, H|].
  split; [apply spaced_from_fixed, spaced_from_weaken, H|].
  apply clean_length.
Qed.

(** X9: when the normalized text ends in whitespace or still carries a
    [, am] / [, pm] suffix, a second application makes it strictly
    shorter. *)
Theorem X9_second_application_shortens (x : cell) :
  ends_with_space (_clean_rotation_text x) = true
  \/ has_ampm_suffix (_clean_rotation_text x) = true ->
  (String.length (_clean_rotation_text (Text (_clean_rotation_text x)))
   < String.length (_clean_rotation_text x))%nat.
Proof.
  pose proof (clean_spaced x) as Hsp.
  set (y := _clean_rotation_text x) in *. intro H.
  unfold _clean_rotation_text at 1. simpl py_str. unfold strip, collapse_ws.
  rewrite (spaced_from_lstrip y Hsp).
  pose proof (sub_ampm_suffix_length (collapse_from false (rstrip y))) as H1.
  pose proof (collapse_from_length false (rstrip y)) as H2.
  pose proof (rstrip_length y) as H3.
  destruct (String.eqb_spec (rstrip y) y) as [E|Hne].
  - assert (Hs : has_ampm_suffix y = true).
    { destruct H as [H|H]; [|exact H].
      unfold ends_with_space in H. rewrite E, String.eqb_refl in H.
      discriminate. }
    rewrite E, (spaced_from_fixed false y (spaced_from_weaken y Hsp)).
    apply sub_ampm_suffix_shorter, Hs.
  - assert (String.length (rstrip y) <> String.length y).
    { intro El. apply Hne. clear -El. revert El.
      induction y as [|c y IH]; simpl; [reflexivity|].
      pose proof (rstrip_length y) as Hl.
      destruct (rstrip y) eqn:Er.
      - destruct (is_space c); simpl; [lia|].
        intro El. destruct y; [reflexivity | simpl in El; lia].
      - simpl. intro El. f_equal. apply IH. simpl. lia. }
    lia.
Qed.

Lemma X9_second_application_witness :
  (String.length
     (_clean_rotation_text (Text (_clean_rotation_text (Text "Rounds, am, pm"))))
   < String.length (_clean_rotation_text (Text "Rounds, am, pm")))%nat.
Proof.
  apply (X9_second_application_shortens (Text "Rounds, am, pm")).
  right. reflexivity.
Defined.

Lemma am_pm_not_space (a b : ascii) :
  is_am_pm a b = true -> is_space a = false /\ is_space b = false.
Proof.
  destruct a as [[] [] [] [] [] [] [] []]; try discriminate;
    destruct b as [[] [] [] [] [] [] [] []]; try discriminate;
    intros _; split; reflexivity.
Qed.

Lemma all_space_app_comma (r t : string) :
  all_space (r ++ String "," t) = false.
Proof.
  induction r as [|c r IH]; simpl; [reflexivity|].
  rewrite IH. apply andb_false_r.
Qed.

Lemma is_am_pm_comma (c : ascii) : is_am_pm c "," = false.
Proof. unfold is_am_pm. apply andb_false_r. Qed.

Lemma comma_is_am_pm (c : ascii) : is_am_pm "," c = false.
Proof. reflexivity. Qed.

(** From a comma that is followed by a later comma the suffix pattern does
    not match. *)
Lemma ampm_tail_comma (r t : string) :
  ampm_tail (r ++ String "," t) = false.
Proof.
  unfold ampm_tail. induction r as [|c r IH].
  - cbn [append lstrip]. change (is_space ",") with false. cbv iota.
    destruct t as [|b t]; [reflexivity|]. rewrite comma_is_am_pm. reflexivity.
  - cbn [append lstrip]. destruct (is_space c); [exact IH|].
    destruct r as [|d r]; cbn [append].
    + rewrite is_am_pm_comma. reflexivity.
    + rewrite all_space_app_comma. apply andb_false_r.
Qed.

Lemma sub_ampm_suffix_app (s tail : string) :
  ampm_tail tail = true ->
  sub_ampm_suffix (s ++ String "," tail) = s.
Proof.
  intro Ht. induction s as [|c s IH]; cbn [append sub_ampm_suffix].
  - rewrite Ht. reflexivity.
  - rewrite ampm_tail_comma, andb_false_r, IH. reflexivity.
Qed.

Lemma rstrip_all_space (w : string) : all_space w = true -> rstrip w = EmptyString.
Proof.
  induction w as [|c w IH]; simpl; [reflexivity|].
  intro H. apply andb_prop in H. destruct H as [Hc Hw].
  rewrite (IH Hw), Hc. reflexivity.
Qed.

Lemma rstrip_app_last (p : string) (b : ascii) (w : string) :
  is_space b = false -> all_space w = true ->
  rstrip (p ++ String b w) = (p ++ String b EmptyString)%string.
Proof.
  intros Hb Hw. induction p as [|c p IH]; cbn [append rstrip].
  - rewrite (rstrip_all_space w Hw), Hb. reflexivity.
  - rewrite IH. destruct p; reflexivity.
Qed.

Lemma collapse_from_app (f : bool) (u : string) (c : ascii) (v : string) :
  is_space c = false ->
  collapse_from f (u ++ String c v)
  = (collapse_from f u ++ String c (collapse_from false v))%string.
Proof.
  intro Hc. revert f. induction u as [|d u IH]; intro f;
    cbn [append collapse_from].
  - rewrite Hc. reflexivity.
  - destruct (is_space d); [destruct f|]; cbn [append]; rewrite IH;
      reflexivity.
Qed.

Lemma collapse_space_run (f : bool) (w : string) (a b : ascii) :
  all_space w = true -> is_am_pm a b = true ->
  ampm_tail (collapse_from f (w ++ String a (String b EmptyString))) = true.
Proof.
  intros Hw Hab. destruct (am_pm_not_space a b Hab) as [Ha Hb].
  revert f. induction w as [|c w IH]; intro f; cbn [append collapse_from].
  - rewrite Ha. cbn [collapse_from]. rewrite Hb. cbn [collapse_from].
    unfold ampm_tail. cbn [lstrip]. rewrite Ha, Hab. reflexivity.
  - simpl in Hw. apply andb_prop in Hw. destruct Hw as [Hc Hw].
    rewrite Hc. destruct f; [apply IH, Hw|].
    specialize (IH Hw true). unfold ampm_tail in *.
    cbn [lstrip]. exact IH.
Qed.

(** X8: the normalizer takes the suffix off: a name with no whitespace
    but single inner spaces, followed by a comma, any whitespace, [am] or
    [pm] in any letter case and any whitespace, is normalized to the
    name. *)
Theorem X8_clean_rotation_text_removes_suffix
    (s w1 w2 : string) (a b : ascii) :
  spaced_from true s = true ->
  all_space w1 = true -> all_space w2 = true -> is_am_pm a b = true ->
  _clean_rotation_text
    (Text (s ++ String "," (w1 ++ String a (String b w2)))) = s.
Proof.
  intros Hs Hw1 Hw2 Hab. destruct (am_pm_not_space a b Hab) as [Ha Hb].
  unfold _clean_rotation_text, strip, collapse_ws. simpl py_str.
  assert (Hl : lstrip (s ++ String "," (w1 ++ String a (String b w2)))
               = (s ++ String "," (w1 ++ String a (String b w2)))%string).
  { destruct s as [|c s]; [reflexivity|]. cbn [append lstrip].
    simpl in Hs. destruct (is_space c); [|reflexivity].
    rewrite andb_false_r in Hs. discriminate. }
  rewrite Hl.
  replace (s ++ String "," (w1 ++ String a (String b w2)))%string
    with ((s ++ String "," (w1 ++ String a EmptyString)) ++ String b w2)%string.
  2:{ rewrite string_app_assoc. cbn [append]. f_equal. f_equal.
      rewrite string_app_assoc. reflexivity. }
  rewrite (rstrip_app_last _ b w2 Hb Hw2).
  replace ((s ++ String "," (w1 ++ String a EmptyString))
             ++ String b EmptyString)%string
    with (s ++ String "," (w1 ++ String a (String b EmptyString)))%string.
  2:{ rewrite string_app_assoc. cbn [append]. f_equal. f_equal.
      rewrite string_app_assoc. reflexivity. }
  rewrite collapse_from_app by reflexivity.
  rewrite (spaced_from_fixed false s (spaced_from_weaken s Hs)).
  apply sub_ampm_suffix_app, collapse_space_run; assumption.
Qed.

Lemma X8_removes_suffix_witness :
  _clean_rotation_text (Text "Cards Consult,  PM ") = "Cards Consult".
Proof.
  apply (X8_clean_rotation_text_removes_suffix "Cards Consult" "  " " "
           "P" "M"); reflexivity.
Defined.

(* ================================================================= *)
(** * Further properties of the coverage checker *)

Section MoreRows.
Context {fmt : Type}.
Variable guess_format : string -> option fmt.
Variable parse_with : option fmt -> string -> parsed.
Variable set_iter : list string -> list string.
Hypothesis set_iter_perm : forall s, NoDup s -> Permutation (set_iter s) s.

Local Abbreviation to_datetime := (column_parser guess_format parse_with).

(** X10: further rows at the end of the frame can only fill rotations
    (they leave the first dated cell, and so the reading of the earlier
    dates, as they were): every name reported as unfilled on a frame with
    further rows is reported on the frame itself. *)
Theorem X10_more_rows_report_fewer_openings
    (df extra : list raw_row) (master : list string) (y m : Z) (x : string) :
  In x (rotations_unfilled_in_month to_datetime set_iter (df ++ extra)
          master y m) ->
  In x (rotations_unfilled_in_month to_datetime set_iter df master y m).
Proof.
  intro H.
  apply (unfilled_in to_datetime set_iter set_iter_perm) in H.
  apply (unfilled_in to_datetime set_iter set_iter_perm).
  destruct H as [r [Hr [Hnf Ex]]]. exists r.
  split; [exact Hr|]. split; [|exact Ex].
  intro Hf. apply Hnf. apply filled_in in Hf. apply filled_in.
  destruct Hf as [p [Hp Hrest]]. exists p. split; [|exact Hrest].
  destruct (prepare_column_prefix guess_format parse_with df extra)
    as [rest E].
  rewrite E. apply in_or_app. left. exact Hp.
Qed.
End MoreRows.

Section CoverageFacts.
Variable to_datetime : list cell -> list (option Z).
Variable set_iter : list string -> list string.
Hypothesis set_iter_perm : forall s, NoDup s -> Permutation (set_iter s) s.

(** X11: the unfilled list is never longer than the master list, and it is
    empty exactly when every master entry occurs in the month. *)
Theorem X11_unfilled_empty_iff_all_filled
    (df : list raw_row) (master : list string) (y m : Z) :
  (length (rotations_unfilled_in_month to_datetime set_iter df master y m)
   <= length master)%nat
  /\ (rotations_unfilled_in_month to_datetime set_iter df master y m = []
      <-> forall r, In r master ->
                    In r (filled (_prepare_rotations_df to_datetime df) y m)).
Proof.
  pose proof (unfilled_sorted_in to_datetime set_iter set_iter_perm
                df master y m) as Hin.
  pose proof (unfilled_sorted_nodup to_datetime set_iter set_iter_perm
                df master y m) as Hnd.
  unfold rotations_unfilled_in_month.
  set (bs := unfilled_sorted to_datetime set_iter df master y m) in *.
  split.
  - rewrite length_map. apply NoDup_incl_length; [exact Hnd|].
    intros r Hr. apply Hin in Hr. tauto.
  - split.
    + intros E r Hr.
      destruct (mem r (filled (_prepare_rotations_df to_datetime df) y m))
        eqn:Em; [apply mem_in, Em|].
      assert (Hb : In r bs).
      { apply Hin. split; [exact Hr|]. intro Hf. apply mem_in in Hf.
        congruence. }
      destruct bs; [contradiction | discriminate].
    + intro Hall. destruct bs as [|r bs']; [reflexivity|].
      assert (Hr : In r (r :: bs')) by (left; reflexivity).
      apply Hin in Hr. destruct Hr as [Hr Hnf]. elim Hnf. apply Hall, Hr.
Qed.
End CoverageFacts.

Lemma X10_more_rows_witness :
  In "Nephrology"
     (rotations_unfilled_in_month inferring_to_datetime insertion_order []
        ["Cardiology"; "Nephrology*"] 2026 2).
Proof.
  apply (X10_more_rows_report_fewer_openings guess_iso_us parse_iso_us
           insertion_order insertion_order_perm [] cardiology_frame
           ["Cardiology"; "Nephrology*"] 2026 2 "Nephrology").
  vm_compute. left. reflexivity.
Defined.

Lemma X11_unfilled_empty_witness :
  (length (rotations_unfilled_in_month iso_to_datetime insertion_order
             cardiology_frame ["Cardiology"; "Cardiology"] 2026 2)
   <= 2)%nat.
Proof.
  destruct (X11_unfilled_empty_iff_all_filled iso_to_datetime insertion_order
              insertion_order_perm cardiology_frame
              ["Cardiology"; "Cardiology"] 2026 2) as [H _].
  exact H.
Defined.

(* ================================================================= *)
(** * The request *)

Lemma count_char_app (c : ascii) (a b : string) :
  count_char c (a ++ b)%string = (count_char c a + count_char c b)%nat.
Proof.
  induction a as [|d a IH]; simpl; [reflexivity|]. rewrite IH. lia.
Qed.

Lemma hex_digit_safe (n : N) : (n < 16)%N -> always_safe (hex_digit n) = true.
Proof.
  intro H.
  assert (Hall : forallb (fun k => always_safe (hex_digit (N.of_nat k)))
                         (seq 0 16) = true) by reflexivity.
  rewrite forallb_forall in Hall.
  rewrite <- (N2Nat.id n). apply Hall. apply in_seq. lia.
Qed.

Lemma byte_high_low (c : ascii) :
  (N_of_ascii c / 16 < 16)%N /\ (N_of_ascii c mod 16 < 16)%N.
Proof.
  pose proof (N_ascii_bounded c) as H. split.
  - apply N.Div0.div_lt_upper_bound. exact H.
  - apply N.mod_lt. discriminate.
Qed.

(** The encoded passkey holds no character that [quote] would quote, the
    percent sign apart. *)
Lemma quote_count (c : ascii) (s : string) :
  always_safe c = false -> c <> "/"%char -> c <> "%"%char ->
  count_char c (quote s) = 0%nat.
Proof.
  intros Hc Hs Hp. induction s as [|d s IH]; [reflexivity|].
  cbn [quote]. destruct (byte_high_low d) as [Hhi Hlo].
  assert (Hne : forall x, always_safe x = true -> (c =? x)%char = false).
  { intros x Hx. apply Ascii.eqb_neq. intro E. subst x. congruence. }
  destruct (always_safe d || (d =? "/")%char) eqn:Hd; cbn [count_char].
  - rewrite IH. apply orb_prop in Hd. destruct Hd as [Hd|Hd].
    + rewrite (Hne d Hd). reflexivity.
    + apply Ascii.eqb_eq in Hd. subst d.
      apply Ascii.eqb_neq in Hs. rewrite Hs. reflexivity.
  - rewrite IH, (Hne _ (hex_digit_safe _ Hhi)), (Hne _ (hex_digit_safe _ Hlo)).
    apply Ascii.eqb_neq in Hp. rewrite Hp. reflexivity.
Qed.

Lemma str_of_uint_count (c : ascii) (d : Decimal.uint) :
  is_digit c = false ->
  count_char c (DecimalString.NilEmpty.string_of_uint d) = 0%nat.
Proof.
  intro Hc.
  assert (Hne : forall x, is_digit x = true -> (c =? x)%char = false).
  { intros x Hx. apply Ascii.eqb_neq. intro E. subst x. congruence. }
  induction d; cbn [DecimalString.NilEmpty.string_of_uint count_char];
    [reflexivity| | | | | | | | | |]; rewrite IHd, Hne; reflexivity.
Qed.

Lemma str_of_int_count (c : ascii) (n : Z) :
  is_digit c = false -> c <> "-"%char ->
  count_char c (str_of_int n) = 0%nat.
Proof.
  intros Hc Hm. unfold str_of_int, DecimalString.NilZero.string_of_int.
  assert (Hu : forall d, count_char c (DecimalString.NilZero.string_of_uint d)
                         = 0%nat).
  { intro d. unfold DecimalString.NilZero.string_of_uint.
    destruct d; try apply (str_of_uint_count c _ Hc).
    cbn [count_char].
    assert (E : (c =? "0")%char = false).
    { apply Ascii.eqb_neq. intro E. subst c. discriminate. }
    rewrite E. reflexivity. }
  destruct (Z.to_int n); cbn [count_char]; rewrite Hu; [reflexivity|].
  apply Ascii.eqb_neq in Hm. rewrite Hm. reflexivity.
Qed.

Lemma strftime_y_count (c : ascii) (d : date) :
  is_digit c = false -> c <> "-"%char ->
  count_char c (strftime_y d) = 0%nat.
Proof.
  intros Hc Hm. unfold strftime_y.
  destruct (year d mod 100 <? 10); [rewrite count_char_app|];
    rewrite (str_of_int_count c _ Hc Hm); [|reflexivity].
  cbn [count_char].
  assert (E : (c =? "0")%char = false).
  { apply Ascii.eqb_neq. intro E. subst c. discriminate. }
  rewrite E. reflexivity.
Qed.

Lemma generate_url_count (c : ascii) (startdate enddate : date)
    (passkey : string) :
  always_safe c = false -> c <> "/"%char -> c <> "%"%char ->
  count_char c (generate_url startdate enddate (quote passkey))
  = count_char c
      "https://www.amion.com/cgi-bin/ocs?Lo=&Rpt=625ctabs&Day=&Month=-&Days=".
Proof.
  intros Hc Hs Hp.
  assert (Hd : is_digit c = false).
  { destruct (is_digit c) eqn:E; [|reflexivity].
    unfold always_safe in Hc. unfold is_digit in E. rewrite E in Hc.
    rewrite orb_true_r in Hc. discriminate. }
  assert (Hm : c <> "-"%char) by (intro E; subst c; discriminate).
  unfold generate_url. cbv zeta.
  repeat rewrite count_char_app.
  rewrite (quote_count c passkey Hc Hs Hp).
  rewrite !(str_of_int_count c _ Hd Hm), (strftime_y_count c _ Hd Hm).
  cbn [count_char]. lia.
Qed.

(** X12: whatever the passkey and the dates are, the URL has one question
    mark, the four ampersands and five equals signs of its own query, and
    neither a hash sign nor a space: the encoded passkey cannot add to the
    query or cut it short. *)
Theorem X12_passkey_cannot_change_the_query
    (startdate enddate : date) (passkey : string) :
  let url := generate_url startdate enddate (quote passkey) in
  count_char "?" url = 1%nat
  /\ count_char "&" url = 4%nat
  /\ count_char "=" url = 5%nat
  /\ count_char "#" url = 0%nat
  /\ count_char " " url = 0%nat.
Proof.
  cbv zeta.
  repeat split;
    (rewrite generate_url_count;
     [reflexivity | reflexivity | discriminate | discriminate]).
Qed.

(* ================================================================= *)
(** * The cleaning of the export *)

Lemma lstrip_fixed_head (z : string) :
  lstrip z = z ->
  match z with
  | EmptyString => True
  | String c _ => is_space c = false
  end.
Proof.
  intro H. pose proof (lstrip_not_space z) as Hn. rewrite H in Hn. exact Hn.
Qed.

Lemma lstrip_rstrip (z : string) :
  lstrip z = z -> lstrip (rstrip z) = rstrip z.
Proof.
  intro H. pose proof (lstrip_fixed_head z H) as Hc.
  pose proof (rstrip_head z) as Hr.
  destruct z as [|c z]; [reflexivity|].
  specialize (Hr Hc). destruct (rstrip (String c z)) as [|d r];
    [contradiction|].
  subst d. simpl. rewrite Hc. reflexivity.
Qed.

Lemma rstrip_rstrip (s : string) : rstrip (rstrip s) = rstrip s.
Proof.
  induction s as [|c s IH]; [reflexivity|]. cbn [rstrip].
  destruct (rstrip s) as [|d r] eqn:E.
  - destruct (is_space c) eqn:Hc; [reflexivity|].
    cbn [rstrip]. rewrite Hc. reflexivity.
  - cbn [rstrip]. cbn [rstrip] in IH. rewrite IH. reflexivity.
Qed.

Lemma lstrip_lstrip (s : string) : lstrip (lstrip s) = lstrip s.
Proof.
  induction s as [|c s IH]; [reflexivity|]. simpl.
  destruct (is_space c) eqn:Hc; [exact IH|]. simpl. rewrite Hc. reflexivity.
Qed.

Lemma strip_strip (s : string) : strip (strip s) = strip s.
Proof.
  unfold strip.
  rewrite (lstrip_rstrip (lstrip s) (lstrip_lstrip s)).
  apply rstrip_rstrip.
Qed.

Lemma has_char_lstrip (c : ascii) (s : string) :
  has_char c s = false -> has_char c (lstrip s) = false.
Proof.
  induction s as [|d s IH]; [trivial|]. cbn [lstrip].
  destruct (is_space d); [|trivial].
  cbn [has_char]. intro H. apply orb_false_elim in H. apply IH, H.
Qed.

Lemma has_char_rstrip (c : ascii) (s : string) :
  has_char c s = false -> has_char c (rstrip s) = false.
Proof.
  induction s as [|d s IH]; [trivial|]. cbn [rstrip has_char].
  intro H. apply orb_false_elim in H. destruct H as [H1 H2].
  specialize (IH H2).
  destruct (rstrip s); [destruct (is_space d)|]; cbn [has_char];
    rewrite ?H1; try reflexivity; try exact IH.
Qed.

Lemma has_char_remove_char (c : ascii) (s : string) :
  has_char c (remove_char c s) = false.
Proof.
  induction s as [|d s IH]; [reflexivity|]. cbn [remove_char].
  destruct (Ascii.eqb_spec d c) as [->|Hne]; [exact IH|].
  cbn [has_char]. rewrite IH, orb_false_r. apply Ascii.eqb_neq. congruence.
Qed.

Lemma has_char_remove_other (c d : ascii) (s : string) :
  has_char c s = false -> has_char c (remove_char d s) = false.
Proof.
  induction s as [|e s IH]; [trivial|]. cbn [remove_char has_char].
  intro H. apply orb_false_elim in H. destruct H as [H1 H2].
  destruct (e =? d)%char; [apply IH, H2|].
  cbn [has_char]. rewrite H1. apply IH, H2.
Qed.

(** The last character of a text that [rstrip] returns is no
    whitespace. *)
Lemma last_char_rstrip (s : string) :
  match last_char (rstrip s) with
  | Some l => is_space l = false
  | None => rstrip s = EmptyString
  end.
Proof.
  induction s as [|c s IH]; [reflexivity|]. cbn [rstrip].
  destruct (rstrip s) as [|d r].
  - destruct (is_space c) eqn:Hc; [reflexivity | exact Hc].
  - change (last_char (String c (String d r)))
      with (last_char (String d r)).
    destruct (last_char (String d r)); [exact IH | discriminate IH].
Qed.

Lemma last_char_some (s : string) (l : ascii) :
  last_char s = Some l -> s <> EmptyString.
Proof. destruct s; [discriminate | discriminate]. Qed.

Lemma last_char_collapse (f : bool) (z : string) (l : ascii) :
  last_char z = Some l -> is_space l = false ->
  last_char (collapse_from f z) = Some l.
Proof.
  intros Hl Hs. revert f. induction z as [|c z IH]; intro f; [discriminate|].
  destruct z as [|d z].
  - inversion Hl; subst c. cbn [collapse_from]. rewrite Hs. reflexivity.
  - assert (Hl' : last_char (String d z) = Some l) by exact Hl.
    pose proof (IH Hl' true) as Ht. pose proof (IH Hl' false) as Hf.
    assert (Hcons : forall x w, last_char w = Some l ->
                                last_char (String x w) = Some l).
    { intros x w Hw. destruct w; [discriminate | exact Hw]. }
    change (collapse_from f (String c (String d z)))
      with (if is_space c
            then (if f then collapse_from true (String d z)
                  else String " " (collapse_from true (String d z)))
            else String c (collapse_from false (String d z))).
    destruct (is_space c); [destruct f|]; auto.
Qed.

Lemma rstrip_fixed_of_last (z : string) (l : ascii) :
  last_char z = Some l -> is_space l = false -> rstrip z = z.
Proof.
  intros Hl Hs. induction z as [|c z IH]; [discriminate|].
  destruct z as [|d z].
  - inversion Hl; subst c. cbn [rstrip]. rewrite Hs. reflexivity.
  - assert (Hl' : last_char (String d z) = Some l) by exact Hl.
    change (rstrip (String c (String d z)))
      with (match rstrip (String d z) with
            | EmptyString =>
                if is_space c then EmptyString else String c EmptyString
            | r' => String c r'
            end).
    rewrite (IH Hl'). reflexivity.
Qed.

(** The text of an assignment after [download_df] is left as it is by
    [strip] and by the collapsing of whitespace. *)
Lemma clean_assignment_fixed (c : cell) :
  strip (clean_assignment c) = clean_assignment c
  /\ collapse_ws (clean_assignment c) = clean_assignment c.
Proof.
  unfold clean_assignment.
  pose proof (collapse_strip_spaced (py_str c)) as Hsp.
  split; [|apply spaced_from_fixed, spaced_from_weaken, Hsp].
  unfold strip at 1. rewrite (spaced_from_lstrip _ Hsp).
  pose proof (last_char_rstrip (lstrip (py_str c))) as Hl.
  fold (strip (py_str c)) in Hl.
  destruct (last_char (strip (py_str c))) as [l|] eqn:E.
  - apply (rstrip_fixed_of_last _ l); [|exact Hl].
    apply last_char_collapse; assumption.
  - rewrite Hl. reflexivity.
Qed.

Lemma clean_name_fixed (c : cell) :
  strip (clean_name c) = clean_name c
  /\ has_char "'" (clean_name c) = false
  /\ has_char "034" (clean_name c) = false.
Proof.
  unfold clean_name. split; [apply strip_strip|].
  unfold strip. split; apply has_char_rstrip, has_char_lstrip.
  - apply has_char_remove_other, has_char_remove_char.
  - apply has_char_remove_char.
Qed.

Section RetrievalFacts.
Variable read_table : string -> fetched.

Lemma download_df_rows (academicYear passkey : string)
    (rows : list amion_row) (r : amion_row) :
  download_df read_table academicYear passkey = Returned rows ->
  In r rows ->
  exists table r0,
    read_table (generate_url (fst (academic_year_dates academicYear))
                             (snd (academic_year_dates academicYear))
                             (quote passkey)) = Table table
    /\ In r0 table
    /\ notna (col_Role r0) = true
    /\ is_services (col_Role r0) = false
    /\ ends_in_star (col_Role r0) = false
    /\ r = mk_amion (Text (clean_name (col_Name r0)))
                    (Text (clean_assignment (col_Assignment r0)))
                    (col_Date r0) (col_Start r0) (col_Stop r0) (col_Role r0)
                    (col_Type r0) (col_Assgn r0).
Proof.
  unfold download_df.
  destruct (academic_year_dates academicYear) as [startdate enddate].
  cbn [fst snd].
  destruct (read_table _) as [table| |e] eqn:Hread;
    [|intros H; inversion H; subst; contradiction | discriminate].
  destruct (negb (existsb (fun r1 => notna (col_Role r1)) table)
            && negb (Nat.eqb (length table) 0)); [discriminate|].
  intros H Hin. inversion H; subst rows. clear H.
  apply in_map_iff in Hin. destruct Hin as [r1 [E1 Hin]].
  apply in_map_iff in Hin. destruct Hin as [r0 [E0 Hin]].
  apply filter_In in Hin. destruct Hin as [Hin H3].
  apply filter_In in Hin. destruct Hin as [Hin H2].
  apply filter_In in Hin. destruct Hin as [Hin H1].
  exists table, r0. apply negb_true_iff in H2, H3. subst r1 r. simpl.
  repeat split; assumption.
Qed.

(** X13: every row [download_df] returns is a row of the table it read,
    with the name and the assignment cleaned: the role is a text, is not
    ['Services'] and does not end in a star; the name is a text without
    quotes and without whitespace around it, the text [nan] when the
    export has no name; and the assignment is a text that [strip] and the
    collapsing of whitespace leave as it is. *)
Theorem X13_download_df_rows_are_clean
    (academicYear passkey : string) (rows : list amion_row) (r : amion_row) :
  download_df read_table academicYear passkey = Returned rows ->
  In r rows ->
  (exists table r0,
      read_table (generate_url (fst (academic_year_dates academicYear))
                               (snd (academic_year_dates academicYear))
                               (quote passkey)) = Table table
      /\ In r0 table
      /\ col_Name r = Text (clean_name (col_Name r0))
      /\ (col_Name r0 = NaN -> col_Name r = Text "nan")
      /\ col_Assignment r = Text (clean_assignment (col_Assignment r0))
      /\ col_Date r = col_Date r0 /\ col_Role r = col_Role r0)
  /\ (exists role,
        col_Role r = Text role /\ role <> "Services"
        /\ last_char role <> Some "*"%char)
  /\ (exists n,
        col_Name r = Text n /\ strip n = n
        /\ has_char "'" n = false /\ has_char "034" n = false)
  /\ (exists a,
        col_Assignment r = Text a /\ strip a = a /\ collapse_ws a = a).
Proof.
  intros Hd Hin.
  destruct (download_df_rows _ _ _ _ Hd Hin)
    as [table [r0 [Ht [H0 [H1 [H2 [H3 E]]]]]]].
  subst r. simpl. split; [|split; [|split]].
  - exists table, r0. repeat split; try assumption.
    intros ->. reflexivity.
  - destruct (col_Role r0) as [role|]; [|discriminate].
    exists role. split; [reflexivity|]. simpl in H2, H3. split.
    + apply String.eqb_neq. exact H2.
    + intro El. rewrite El in H3. discriminate.
  - exists (clean_name (col_Name r0)). split; [reflexivity|].
    apply clean_name_fixed.
  - exists (clean_assignment (col_Assignment r0)). split; [reflexivity|].
    apply clean_assignment_fixed.
Qed.
End RetrievalFacts.

Lemma X13_download_df_rows_witness :
  exists n,
    Text "ONeil" = Text n /\ strip n = n
    /\ has_char "'" n = false /\ has_char "034" n = false.
Proof.
  destruct (X13_download_df_rows_are_clean example_read_table "AY24" "key"
              (match download_df example_read_table "AY24" "key" with
               | Returned l => l
               | Raised _ => []
               end)
              (mk_amion (Text "ONeil") (Text "Cards Consult, pm")
                        (Text "2024-01-01") NaN NaN (Text "Resident") NaN NaN))
    as [_ [_ [H _]]].
  - vm_compute. reflexivity.
  - vm_compute. left. reflexivity.
  - exact H.
Defined.

(* ================================================================= *)
(** * Several years *)

Section MultiYearFacts.
Variable read_table : string -> fetched.

Lemma multi_year_loop_spec (ys : list string) (passkey : string)
    (dfs : list (list frame_row)) :
  match multi_year_loop read_table ys passkey dfs with
  | Returned out =>
      (forall ay, In ay ys ->
                  exists l, download_df read_table ay passkey = Returned l)
      /\ concat out = concat dfs ++ flat_map (tagged_frame read_table passkey) ys
  | Raised e =>
      exists ay, In ay ys /\ download_df read_table ay passkey = Raised e
  end.
Proof.
  revert dfs. induction ys as [|ay ys IH]; intro dfs; cbn [multi_year_loop].
  - split; [intros ay []|]. simpl. rewrite app_nil_r. reflexivity.
  - cbn [flat_map].
    destruct (download_df read_table ay passkey) as [dfi|e] eqn:Hd.
    + assert (Ht : tagged_frame read_table passkey ay
                   = map (fun r => mk_frame r ay) dfi)
        by (unfold tagged_frame; rewrite Hd; reflexivity).
      rewrite Ht.
      destruct (Nat.eqb_spec (length dfi) 0) as [Hz|Hnz].
      * apply length_zero_iff_nil in Hz. subst dfi.
        specialize (IH dfs).
        destruct (multi_year_loop read_table ys passkey dfs) as [out|e].
        -- destruct IH as [H1 H2]. split; [|exact H2].
           intros ay' [<-|Hin]; [exists []; exact Hd | apply H1, Hin].
        -- destruct IH as [ay' [Hin He]]. exists ay'.
           split; [right; exact Hin | exact He].
      * specialize (IH (dfs ++ [map (fun r => mk_frame r ay) dfi])).
        destruct (multi_year_loop read_table ys passkey
                    (dfs ++ [map (fun r => mk_frame r ay) dfi])) as [out|e].
        -- destruct IH as [H1 H2]. split.
           ++ intros ay' [<-|Hin]; [exists dfi; exact Hd | apply H1, Hin].
           ++ rewrite H2, concat_app. simpl. rewrite app_nil_r, <- app_assoc.
              reflexivity.
        -- destruct IH as [ay' [Hin He]]. exists ay'.
           split; [right; exact Hin | exact He].
    + exists ay. split; [left; reflexivity | exact Hd].
Qed.

Lemma download_df_multi_year_spec (ys : list string) (passkey : string) :
  match download_df_multi_year read_table ys passkey with
  | Returned frame =>
      (forall ay, In ay ys ->
                  exists l, download_df read_table ay passkey = Returned l)
      /\ frame = flat_map (tagged_frame read_table passkey) ys
  | Raised e =>
      exists ay, In ay ys /\ download_df read_table ay passkey = Raised e
  end.
Proof.
  unfold download_df_multi_year.
  pose proof (multi_year_loop_spec ys passkey []) as H.
  destruct (multi_year_loop read_table ys passkey []) as [out|e];
    [|exact H].
  destruct H as [H1 H2]. simpl in H2.
  destruct (Nat.eqb_spec (length out) 0) as [Hz|Hnz].
  - apply length_zero_iff_nil in Hz. subst out. simpl in H2.
    split; [exact H1 | exact H2].
  - split; [exact H1 | exact H2].
Qed.

Lemma multi_year_returned (ys : list string) (passkey : string)
    (frame : list frame_row) :
  download_df_multi_year read_table ys passkey = Returned frame ->
  frame = flat_map (tagged_frame read_table passkey) ys.
Proof.
  intro E. pose proof (download_df_multi_year_spec ys passkey) as H.
  rewrite E in H. tauto.
Qed.

(** X14: [download_df_multi_year] returns exactly when [download_df]
    returns for every selected year, and then its frame is the frames of
    the years, in the order selected, each row with its year; a year
    without rows adds nothing, and one year that fails fails the whole
    call. *)
Theorem X14_multi_year_frame_is_the_years_in_order
    (ys : list string) (passkey : string) (frame : list frame_row) :
  download_df_multi_year read_table ys passkey = Returned frame <->
  (forall ay, In ay ys ->
              exists l, download_df read_table ay passkey = Returned l)
  /\ frame = flat_map (tagged_frame read_table passkey) ys.
Proof.
  pose proof (download_df_multi_year_spec ys passkey) as H.
  destruct (download_df_multi_year read_table ys passkey) as [f|e].
  - destruct H as [H1 H2]. split.
    + intro E. injection E as <-. split; [exact H1 | exact H2].
    + intros [_ E]. congruence.
  - destruct H as [ay [Hin He]]. split; [discriminate|].
    intros [H1 _]. destruct (H1 ay Hin) as [l Hl]. congruence.
Qed.

(** X15: in the frame of [download_df_multi_year] every row carries one of
    the selected years, its name is a text (the preparer's test for a
    missing name never drops it), and the normalizer does nothing to its
    assignment but take off an [am] / [pm] suffix. *)
Theorem X15_preparer_on_a_downloaded_frame
    (ys : list string) (passkey : string) (frame : list frame_row)
    (r : frame_row) :
  download_df_multi_year read_table ys passkey = Returned frame ->
  In r frame ->
  In (AcademicYear r) ys
  /\ exists r0 a,
       raw_Name (core_row r) = Text (clean_name (col_Name r0))
       /\ notna (raw_Name (core_row r)) = true
       /\ raw_Assignment (core_row r) = Text a
       /\ _clean_rotation_text (raw_Assignment (core_row r))
          = sub_ampm_suffix a.
Proof.
  intros Hd Hin. apply multi_year_returned in Hd.
  subst frame. apply in_flat_map in Hin.
  destruct Hin as [ay [Hay Hr]]. unfold tagged_frame in Hr.
  destruct (download_df read_table ay passkey) as [dfi|e] eqn:Hdf;
    [|contradiction].
  apply in_map_iff in Hr. destruct Hr as [r1 [<- Hr1]].
  destruct (download_df_rows read_table _ _ _ _ Hdf Hr1)
    as [table [r0 [_ [_ [_ [_ [_ ->]]]]]]].
  split; [exact Hay|].
  exists r0, (clean_assignment (col_Assignment r0)). simpl.
  repeat split.
  unfold _clean_rotation_text. simpl py_str.
  destruct (clean_assignment_fixed (col_Assignment r0)) as [H1 H2].
  rewrite H1, H2. reflexivity.
Qed.
End MultiYearFacts.

Lemma X15_preparer_on_a_downloaded_frame_witness :
  let r := mk_frame
             (mk_amion (Text "nan") (Text "Wards") (Text "2024-01-04")
                       NaN NaN (Text "Resident") NaN NaN) "AY24" in
  In (AcademicYear r) ["AY24"]
  /\ exists r0 a,
       raw_Name (core_row r) = Text (clean_name (col_Name r0))
       /\ notna (raw_Name (core_row r)) = true
       /\ raw_Assignment (core_row r) = Text a
       /\ _clean_rotation_text (raw_Assignment (core_row r))
          = sub_ampm_suffix a.
Proof.
  assert (H1 : download_df_multi_year example_read_table ["AY24"] "key"
               = Returned
                   (flat_map (tagged_frame example_read_table "key")
                             ["AY24"]))
    by (vm_compute; reflexivity).
  assert (H2 : In (mk_frame
                     (mk_amion (Text "nan") (Text "Wards")
                               (Text "2024-01-04") NaN NaN (Text "Resident")
                               NaN NaN) "AY24")
                  (flat_map (tagged_frame example_read_table "key")
                            ["AY24"]))
    by (vm_compute; do 6 right; left; reflexivity).
  exact (X15_preparer_on_a_downloaded_frame example_read_table ["AY24"]
           "key" _ _ H1 H2).
Defined.

Section MoreYears.
Context {fmt : Type}.
Variable read_table : string -> fetched.
Variable guess_format : string -> option fmt.
Variable parse_with : option fmt -> string -> parsed.
Variable set_iter : list string -> list string.
Hypothesis set_iter_perm : forall s, NoDup s -> Permutation (set_iter s) s.

Local Abbreviation to_datetime := (column_parser guess_format parse_with).

Lemma master_list_more_rows (df extra : list raw_row) (l l' : list string)
    (x : string) :
  no_overflow (map Date_dt (_prepare_rotations_df to_datetime (df ++ extra))) ->
  build_master_rotations to_datetime set_iter df = Some l ->
  build_master_rotations to_datetime set_iter (df ++ extra) = Some l' ->
  In x l -> In x l'.
Proof.
  intros Hov Hl Hl' Hin.
  apply (master_list_in to_datetime set_iter set_iter_perm _ _ x Hl') .
  apply (master_list_in to_datetime set_iter set_iter_perm _ _ x Hl) in Hin.
  destruct Hin as [person Hg]. exists person.
  destruct (prepare_column_prefix guess_format parse_with df extra)
    as [rest E].
  rewrite E in *.
  assert (Hov1 : no_overflow
                   (map Date_dt (_prepare_rotations_df to_datetime df))).
  { intros a b Ha Hb. apply Hov; rewrite map_app; apply in_or_app; left;
      assumption. }
  apply (group_qualifies_fits _ (person, x) Hov).
  apply fits_window_more_rows; [lia|].
  apply (group_qualifies_fits _ (person, x) Hov1). exact Hg.
Qed.

(** X16: selecting further academic years never takes a rotation off the
    master list (the rows of the further years come after the others and
    leave the first dated cell as it was): when no difference of two dates
    of the larger frame overflows, every entry of the master list built
    from the years [ys] is an entry of the one built from [ys] and further
    years. *)
Theorem X16_more_years_keep_the_master_list
    (ys more : list string) (passkey : string)
    (small big : list frame_row) (l l' : list string) (x : string) :
  download_df_multi_year read_table ys passkey = Returned small ->
  download_df_multi_year read_table (ys ++ more) passkey = Returned big ->
  no_overflow
    (map Date_dt (_prepare_rotations_df to_datetime (map core_row big))) ->
  build_master_rotations to_datetime set_iter (map core_row small) = Some l ->
  build_master_rotations to_datetime set_iter (map core_row big) = Some l' ->
  In x l -> In x l'.
Proof.
  intros Hs Hb Hov Hl Hl'.
  apply multi_year_returned in Hs, Hb. subst small big.
  rewrite flat_map_app, map_app in *.
  apply (master_list_more_rows _ _ l l' x Hov Hl Hl').
Qed.
End MoreYears.

Lemma no_overflow_bounded (lo hi : Z) (t : list Z) :
  Forall (fun x => lo <= x <= hi) t -> hi - lo < 2 ^ 63 -> no_overflow t.
Proof.
  intros Hall Hb x y Hx Hy. rewrite Forall_forall in Hall.
  pose proof (Hall x Hx). pose proof (Hall y Hy). lia.
Qed.

Lemma X16_more_years_witness :
  In "Cards Consult" ["Cards Consult"].
Proof.
  apply (X16_more_years_keep_the_master_list example_read_table
           guess_iso_us parse_iso_us insertion_order insertion_order_perm
           ["AY24"] ["AY25"] "key"
           (flat_map (tagged_frame example_read_table "key") ["AY24"])
           (flat_map (tagged_frame example_read_table "key")
                     ["AY24"; "AY25"])
           ["Cards Consult"] ["Cards Consult"] "Cards Consult").
  - vm_compute. reflexivity.
  - vm_compute. reflexivity.
  - apply (no_overflow_bounded 1704067200000000000 1712016000000000000);
      [|reflexivity].
    assert (E : forallb (fun x => (1704067200000000000 <=? x)
                                  && (x <=? 1712016000000000000))
                        (map Date_dt
                           (_prepare_rotations_df inferring_to_datetime
                              (map core_row
                                 (flat_map
                                    (tagged_frame example_read_table "key")
                                    ["AY24"; "AY25"])))) = true)
      by (vm_compute; reflexivity).
    rewrite forallb_forall in E. apply Forall_forall. intros x Hx.
    specialize (E x Hx). apply andb_true_iff in E.
    rewrite !Z.leb_le in E. exact E.
  - vm_compute. reflexivity.
  - vm_compute. reflexivity.
  - left. reflexivity.
Defined.

(* ================================================================= *)
(** * The server *)

Section ServerFacts.
Variable read_table : string -> fetched.
Variable to_datetime : list cell -> list (option Z).
Variable set_iter : list string -> list string.
Variable month_interval : string -> outcome (Z * Z).
Variable exn_message : exn -> string.
Hypothesis set_iter_perm : forall s, NoDup s -> Permutation (set_iter s) s.

Local Abbreviation invariant :=
  (server_invariant read_table to_datetime set_iter).
Local Abbreviation load :=
  (_load_data read_table to_datetime set_iter exn_message).
Local Abbreviation check :=
  (_check_month to_datetime set_iter month_interval exn_message).

Lemma unfilled_between_in (df : list raw_row) (master : list string)
    (lo hi : Z) (x : string) :
  In x (unfilled_between to_datetime set_iter df master lo hi) ->
  exists r, In r master /\ x = remove_star r.
Proof.
  unfold unfilled_between, sorted_by_lower. intro H.
  apply in_map_iff in H. destruct H as [r [<- Hr]].
  rewrite stable_sort_in in Hr.
  set (u := filter _ master) in Hr.
  destruct (set_of_list_spec u) as [Hnd Hin].
  apply (Permutation_in _ (set_iter_perm _ Hnd)) in Hr.
  apply Hin in Hr. apply filter_In in Hr. exists r. tauto.
Qed.

Lemma cleared_invariant (status : string) : invariant (cleared status).
Proof.
  unfold server_invariant, cleared. simpl.
  split; [reflexivity|]. split; [intro H; contradiction|]. intros x [].
Qed.

Lemma load_invariant (p : option string) (ys : option (list string))
    (s : app_state) :
  invariant (load p ys s).
Proof.
  unfold _load_data.
  destruct (String.eqb (strip (or_empty p)) EmptyString);
    [apply cleared_invariant|].
  destruct (Nat.eqb _ 0); [apply cleared_invariant|].
  destruct (download_df_multi_year read_table _ _) as [df|e] eqn:Hd;
    [|apply cleared_invariant].
  destruct (Nat.eqb_spec (length df) 0) as [Hz|Hnz];
    [apply cleared_invariant|].
  destruct (build_master_rotations to_datetime set_iter (map core_row df))
    as [master|] eqn:Hb; [|apply cleared_invariant].
  unfold server_invariant. simpl. split; [|split].
  - intros ->. simpl in Hnz. contradiction.
  - intros _. split; [|exact Hb]. eexists. eexists. exact Hd.
  - intros x [].
Qed.

Lemma check_invariant (m : option string) (s : app_state) :
  invariant s -> invariant (check m s).
Proof.
  intros [H1 [H2 _]]. unfold _check_month.
  destruct (Nat.eqb_spec (length (df_state s)) 0) as [Hz|Hnz]; simpl.
  - unfold server_invariant. simpl. split; [exact H1|].
    split; [exact H2 | intros x []].
  - assert (Hne : df_state s <> [])
      by (intro E; rewrite E in Hnz; simpl in Hnz; contradiction).
    destruct (Nat.eqb (length (master_state s)) 0);
      [unfold server_invariant; simpl; split; [exact H1|];
       split; [exact H2 | intros x []]|].
    destruct (negb (month_format_ok _));
      [unfold server_invariant; simpl; split; [exact H1|];
       split; [exact H2 | intros x []]|].
    destruct (month_interval _) as [[lo hi]|e];
      unfold server_invariant; simpl;
      (split; [exact H1|]); (split; [exact H2|]); [|intros x []].
    intros x Hx. split; [exact Hne|].
    apply (unfilled_between_in _ _ _ _ _ Hx).
Qed.

(** X17: after any sequence of clicks on [load] and [check]: without a
    frame there is no master list; a frame in the state was returned by a
    download and the master list in the state is the one built from that
    frame; and every opening in the state is an entry of that master list
    with its stars removed, so openings never outlive the data they were
    computed from. *)
Theorem X17_server_keeps_data_master_and_openings_paired
    (events : list (event)) :
  invariant (run read_table to_datetime set_iter month_interval exn_message
               events).
Proof.
  unfold run.
  assert (H0 : invariant initial_state).
  { unfold server_invariant, initial_state. simpl.
    split; [reflexivity|]. split; [intro H; contradiction | intros x []]. }
  revert H0. generalize initial_state.
  induction events as [|e events IH]; intros s Hs; simpl; [exact Hs|].
  apply IH. destruct e as [p ys|m]; simpl.
  - apply load_invariant.
  - apply check_invariant, Hs.
Qed.
End ServerFacts.

Lemma X17_server_witness :
  server_invariant example_read_table iso_to_datetime insertion_order
    (run example_read_table iso_to_datetime insertion_order
         example_month_interval example_exn_message
         [Load (Some " key ") (Some ["AY24"]); Check (Some "2024-05")]).
Proof.
  apply (X17_server_keeps_data_master_and_openings_paired example_read_table
           iso_to_datetime insertion_order example_month_interval
           example_exn_message insertion_order_perm).
Defined.
